(** * The "Copy page" button of the documentation site

    A shallow embedding of [docs/js/copy-as-markdown.js] (the notebook-aware
    revision): the path resolution [getMarkdownPath], the notebook
    conversion [notebookToMarkdown], the promise chain of [copyMarkdown],
    the feedback on the button, [createButton] with the navigation callback,
    and the earlier revision of the promise chain, together with the
    properties the specification states about them and further properties
    read off the code.

    JavaScript strings are modelled as [string]; the host (DOM, network,
    [JSON.parse], clipboard) is a record of oracles. *)

From Stdlib Require Import String Ascii List Bool Arith Lia.
Import ListNotations.
Local Open Scope string_scope.
Set Warnings "-register-all".

(** ** JavaScript string primitives used by the script *)

Module Js.

(** The line feed, written [\n] in the source. *)
Definition LF : string := String (ascii_of_nat 10) EmptyString.

(** The double quote. *)
Definition DQ : string := String (ascii_of_nat 34) EmptyString.

(** [s.endsWith(suffix)]. *)
Fixpoint endsWith (s suffix : string) : bool :=
  if String.eqb s suffix then true
  else match s with
       | EmptyString => false
       | String _ s' => endsWith s' suffix
       end.

(** [s.indexOf(pat)]; [None] stands for the result [-1]. *)
Fixpoint indexOf (s pat : string) : option nat :=
  if String.prefix pat s then Some 0
  else match s with
       | EmptyString => None
       | String _ s' => option_map S (indexOf s' pat)
       end.

(** [s.substring(start)] for [start <= s.length] (a larger [start] is
    clamped to the length, which gives the empty string here too). *)
Fixpoint substring_from (start : nat) (s : string) : string :=
  match start, s with
  | O, _ => s
  | S k, EmptyString => EmptyString
  | S k, String _ s' => substring_from k s'
  end.

(** [s.replace(/<suffix>$/, repl)] for a literal, non-empty [suffix]: the
    pattern is anchored at the end of the input, so at most the final
    occurrence is replaced. *)
Fixpoint replace_at_end (suffix repl : string) (s : string) : string :=
  if String.eqb s suffix then repl
  else match s with
       | EmptyString => EmptyString
       | String c s' => String c (replace_at_end suffix repl s')
       end.

(** [s.replace(/^\//, "")]. *)
Definition strip_leading_slash (s : string) : string :=
  match s with
  | String c s' => if Ascii.eqb c "/"%char then s' else s
  | EmptyString => s
  end.

(** [s.replace(/\/$/, "")]. *)
Definition strip_trailing_slash (s : string) : string :=
  replace_at_end "/" "" s.

(** *** Values produced by [JSON.parse] *)

(** A number is carried as the text JavaScript prints for it
    (Number::toString); both zeros print as ["0"], and [JSON.parse] never
    produces NaN.  An object is the list of its own properties; the parser
    has already resolved repeated keys. *)
Inductive value : Type :=
  | VNull
  | VBool (b : bool)
  | VNum (printed : string)
  | VStr (s : string)
  | VArr (elems : list value)
  | VObj (props : list (string * value)).

Inductive error : Type :=
  | SyntaxError
  | TypeError
  | Error (message : string)
  | Rejected.

(** How an evaluation ends.  [Unmodelled] marks the one shape of input this
    development does not follow (see [notebookToMarkdown]). *)
Inductive completion (A : Type) : Type :=
  | Normal (a : A)
  | Throw (e : error)
  | Unmodelled.
Arguments Normal {A} a.
Arguments Throw {A} e.
Arguments Unmodelled {A}.

Definition cbind {A B} (c : completion A) (k : A -> completion B)
  : completion B :=
  match c with
  | Normal a => k a
  | Throw e => Throw e
  | Unmodelled => Unmodelled
  end.

(** ToBoolean. *)
Definition truthy (v : value) : bool :=
  match v with
  | VNull => false
  | VBool b => b
  | VNum p => negb (String.eqb p "0")
  | VStr s => negb (String.eqb s "")
  | VArr _ | VObj _ => true
  end.

Fixpoint lookup (k : string) (props : list (string * value)) : option value :=
  match props with
  | [] => None
  | (k', v) :: rest => if String.eqb k k' then Some v else lookup k rest
  end.

(** [v.k] for a property name [k] that no built-in prototype defines
    (here [cells], [source], [cell_type]); [None] is [undefined].  Reading a
    property of [null] throws. *)
Definition prop (k : string) (v : value) : completion (option value) :=
  match v with
  | VNull => Throw TypeError
  | VObj props => Normal (lookup k props)
  | VBool _ | VNum _ | VStr _ | VArr _ => Normal None
  end.

(** [Array.prototype.join] over elements already turned into text by
    [text_of]; [null] elements print as the empty string. *)
Definition join_with (text_of : value -> completion string) (sep : string)
  : list value -> completion string :=
  fix go (l : list value) : completion string :=
    let elem (v : value) :=
      match v with VNull => Normal "" | _ => text_of v end in
    match l with
    | [] => Normal ""
    | [v] => elem v
    | v :: rest =>
        cbind (elem v) (fun s =>
        cbind (go rest) (fun t => Normal (s ++ sep ++ t)))
    end.

(** ToString.  An object prints as ["[object Object]"] unless a data
    property shadows [toString], in which case the conversion finds nothing
    callable and throws. *)
Fixpoint ToString (v : value) : completion string :=
  match v with
  | VNull => Normal "null"
  | VBool true => Normal "true"
  | VBool false => Normal "false"
  | VNum p => Normal p
  | VStr s => Normal s
  | VArr l => join_with ToString "," l
  | VObj props =>
      match lookup "toString" props with
      | Some _ => Throw TypeError
      | None => Normal "[object Object]"
      end
  end.

(** [a.join(sep)] on an array value. *)
Definition join (sep : string) (l : list value) : completion string :=
  join_with ToString sep l.

(** The one-character strings [s[0]], [s[1]], ... of a string. *)
Fixpoint chars (s : string) : list value :=
  match s with
  | EmptyString => []
  | String c s' => VStr (String c EmptyString) :: chars s'
  end.

End Js.
Import Js.

Notation "x <- c ;; k" := (cbind c (fun x => k))
  (at level 61, c at next level, right associativity).

(** ** Constants of the script *)

Definition REPO_RAW_BASE : string :=
  "https://raw.githubusercontent.com/stanfordnlp/dspy/main/docs/docs/".

Definition ICON : string :=
  "<svg xmlns=" ++ DQ ++ "http://www.w3.org/2000/svg" ++ DQ
  ++ " viewBox=" ++ DQ ++ "0 0 24 24" ++ DQ ++ ">"
  ++ "<path d=" ++ DQ
  ++ "M16 1H4c-1.1 0-2 .9-2 2v14h2V3h12V1zm3 4H8c-1.1 0-2 .9-2 2v14"
  ++ "c0 1.1.9 2 2 2h11c1.1 0 2-.9 2-2V7c0-1.1-.9-2-2-2zm0 16H8V7h11v14z"
  ++ DQ ++ "/></svg>".

(** ** [notebookToMarkdown] *)

(** The fenced block a code cell becomes. *)
Definition fence (source : string) : string :=
  "```python" ++ LF ++ source ++ LF ++ "```".

(** [(cell.source || []).join("")]. *)
Definition cell_source (cell : value) : completion string :=
  src <- prop "source" cell ;;
  match src with
  | None => join "" []
  | Some v =>
      if truthy v then
        match v with
        | VArr lines => join "" lines
        | _ => Throw TypeError          (* [join] is not a function *)
        end
      else join "" []
  end.

(** One iteration of the loop body: the new contents of [parts]. *)
Definition push_cell (cell : value) (parts : list string)
  : completion (list string) :=
  source <- cell_source cell ;;
  ty <- prop "cell_type" cell ;;
  match ty with
  | Some (VStr t) =>
      if String.eqb t "markdown" then Normal (parts ++ [source])%list
      else if String.eqb t "code" then Normal (parts ++ [fence source])%list
      else Normal parts
  | _ => Normal parts
  end.

(** The [for] loop over [cells[0]], ..., [cells[cells.length-1]]. *)
Fixpoint cells_loop (cells : list value) (parts : list string)
  : completion (list string) :=
  match cells with
  | [] => Normal parts
  | cell :: rest =>
      parts' <- push_cell cell parts ;;
      cells_loop rest parts'
  end.

(** [nb.cells || []], as the sequence the loop walks.  A truthy value that
    is not an array is walked through its [length]: a string gives its
    characters, a boolean or a number has no [length] and gives nothing, and
    so does an object without a [length] property.  An object that carries
    its own [length] (an array-like) is not followed. *)
Definition cells_of (nb : value) : completion (list value) :=
  c <- prop "cells" nb ;;
  match c with
  | None => Normal []
  | Some v =>
      if truthy v then
        match v with
        | VArr l => Normal l
        | VStr s => Normal (chars s)
        | VObj props =>
            match lookup "length" props with
            | None => Normal []
            | Some _ => Unmodelled
            end
        | _ => Normal []
        end
      else Normal []
  end.

(** The conversion applied to an already parsed notebook. *)
Definition notebook_markdown (nb : value) : completion string :=
  cells <- cells_of nb ;;
  parts <- cells_loop cells [] ;;
  Normal (String.concat (LF ++ LF) parts).

Section Parser.

(** [JSON.parse]: [None] when the text is not well-formed JSON. *)
Variable JSON_parse : string -> option value.

Definition notebookToMarkdown (json : string) : completion string :=
  match JSON_parse json with
  | None => Throw SyntaxError
  | Some nb => notebook_markdown nb
  end.

End Parser.

(** ** [getMarkdownPath] *)

(** What the script reads from the page: the result of
    [document.querySelector('a[title="Edit this page"]')] ([None] when there
    is no such anchor) with its [href] attribute ([None] when the attribute
    is missing), and [window.location.pathname]. *)
Record Document : Type := {
  editLink : option (option string);
  pathname : string
}.

Definition marker : string := "docs/docs/".

(** [editLink.getAttribute("href") || ""]. *)
Definition href_of (attr : option string) : string :=
  match attr with
  | Some h => if String.eqb h "" then "" else h
  | None => ""
  end.

(** The fallback branch: the path built from the current URL. *)
Definition path_from_location (pathname : string) : string :=
  let path := strip_trailing_slash pathname in
  if String.eqb path "" || String.eqb path "/" then "index.md"
  else
    let path := strip_leading_slash path in
    if endsWith path ".md" then path
    else path ++ ".md".

Definition getMarkdownPath (doc : Document) : string :=
  match editLink doc with
  | Some attr =>
      let href := href_of attr in
      match indexOf href marker with
      | Some idx => substring_from (idx + String.length marker) href
      | None => path_from_location (pathname doc)
      end
  | None => path_from_location (pathname doc)
  end.

(** ** The button *)

Record Button : Type := {
  classList : list string;
  innerHTML : string
}.

Definition classList_add (c : string) (b : Button) : Button :=
  {| classList :=
       if existsb (String.eqb c) (classList b) then classList b
       else (classList b ++ [c])%list;
     innerHTML := innerHTML b |}.

Definition classList_remove (c : string) (b : Button) : Button :=
  {| classList := filter (fun c' => negb (String.eqb c c')) (classList b);
     innerHTML := innerHTML b |}.

Definition set_innerHTML (html : string) (b : Button) : Button :=
  {| classList := classList b; innerHTML := html |}.

(** The anchor [createButton] builds, before any click. *)
Definition new_button : Button :=
  {| classList := ["md-content__button"; "md-icon"; "copy-md-btn"];
     innerHTML := ICON ++ " Copy page" |}.

(** [showFeedback], up to its [setTimeout]: the state the button is left in
    for the next 2000 ms. *)
Definition showFeedback (btn : Button) (success : bool) : Button :=
  let btn := classList_remove "copy-md-btn--loading" btn in
  let btn :=
    classList_add
      (if success then "copy-md-btn--success" else "copy-md-btn--error") btn in
  set_innerHTML (ICON ++ (if success then " Copied!" else " Failed to copy"))
                btn.

(** The callback [showFeedback] hands to [setTimeout]. *)
Definition feedback_timeout (btn : Button) : Button :=
  let btn := classList_remove "copy-md-btn--success" btn in
  let btn := classList_remove "copy-md-btn--error" btn in
  set_innerHTML (ICON ++ " Copy page") btn.

(** ** The host and the effects of one click *)

(** A response: its [ok] flag, and what the promise of [text()] settles to
    ([None] when reading the body fails). *)
Record Response : Type := {
  ok : bool;
  body : option string
}.

(** The host: [JSON.parse]; the network, which answers the [n]-th request of
    a click ([None] when the promise of [fetch] rejects); and
    [navigator.clipboard.writeText] ([false] when its promise rejects). *)
Record Host : Type := {
  JSON_parse : string -> option value;
  network : nat -> string -> option Response;
  clipboard_writeText : string -> bool
}.

(** What a click does that can be observed from outside: requests sent,
    the second [then] callback entered with the text and the path in use
    (the specification's normalize), the clipboard written (publish),
    [showFeedback] called. *)
Inductive event : Type :=
  | EFetch (url : string)
  | ENormalize (rawText actualPath : string)
  | EPublish (text : string)
  | EFeedback (success : bool).

Record World : Type := {
  btn : Button;
  trace : list event
}.

Fixpoint requests (t : list event) : list string :=
  match t with
  | [] => []
  | EFetch url :: t' => url :: requests t'
  | _ :: t' => requests t'
  end.

(** A step of the promise chain: it settles with a value or a rejection,
    and changes the world. *)
Definition M (A : Type) : Type := World -> completion A * World.

Definition ret {A} (a : A) : M A := fun w => (Normal a, w).

Definition bind {A B} (m : M A) (k : A -> M B) : M B :=
  fun w =>
    match m w with
    | (Normal a, w') => k a w'
    | (Throw e, w') => (Throw e, w')
    | (Unmodelled, w') => (Unmodelled, w')
    end.

Definition settle {A} (c : completion A) : M A := fun w => (c, w).

(** [p.catch(handler)]. *)
Definition catch {A} (m : M A) (handler : error -> M A) : M A :=
  fun w =>
    match m w with
    | (Throw e, w') => handler e w'
    | r => r
    end.

Definition emit (e : event) : M unit :=
  fun w => (Normal tt, {| btn := btn w; trace := (trace w ++ [e])%list |}).

Definition update_btn (f : Button -> Button) : M unit :=
  fun w => (Normal tt, {| btn := f (btn w); trace := trace w |}).

Notation "x <~ m ;; k" := (bind m (fun x => k))
  (at level 61, m at next level, right associativity).
Notation "m ;;; k" := (bind m (fun _ => k))
  (at level 61, right associativity).

Section Click.

Variable host : Host.

(** [fetch(url)]. *)
Definition fetch (url : string) : M Response :=
  fun w =>
    let n := List.length (requests (trace w)) in
    let w' := {| btn := btn w; trace := (trace w ++ [EFetch url])%list |} in
    match network host n url with
    | Some res => (Normal res, w')
    | None => (Throw Rejected, w')
    end.

(** [res.text()]. *)
Definition text (res : Response) : M string :=
  settle (match body res with
          | Some s => Normal s
          | None => Throw Rejected
          end).

(** The path of the retry. *)
Definition altPath (mdPath : string) : string :=
  let isNotebook := endsWith mdPath ".ipynb" in
  if isNotebook
  then replace_at_end ".ipynb" "/index.ipynb" mdPath
  else replace_at_end ".md" "/index.md" mdPath.

(** The first [then] callback.  The closure variable [mdPath] it may assign
    is returned next to the text. *)
Definition on_response (mdPath : string) (res : Response)
  : M (string * string) :=
  if negb (ok res) then
    res2 <~ fetch (REPO_RAW_BASE ++ altPath mdPath) ;;
    if negb (ok res2) then
      settle (Throw (Error "Could not fetch markdown source"))
    else
      t <~ text res2 ;;
      ret (altPath mdPath, t)
  else
    t <~ text res ;;
    ret (mdPath, t).

(** The conversion step of the second [then] callback. *)
Definition normalize (rawText actualPath : string) : completion string :=
  if endsWith actualPath ".ipynb"
  then notebookToMarkdown (JSON_parse host) rawText
  else Normal rawText.

(** [navigator.clipboard.writeText(text)]. *)
Definition publish (t : string) : M unit :=
  emit (EPublish t) ;;;
  settle (if clipboard_writeText host t then Normal tt else Throw Rejected).

(** The second [then] callback. *)
Definition on_text (mdPath rawText : string) : M unit :=
  emit (ENormalize rawText mdPath) ;;;
  t <~ settle (normalize rawText mdPath) ;;
  publish t.

Definition feedback (success : bool) : M unit :=
  emit (EFeedback success) ;;;
  update_btn (fun b => showFeedback b success).

Definition copyMarkdown (doc : Document) : M unit :=
  let mdPath := getMarkdownPath doc in
  let url := REPO_RAW_BASE ++ mdPath in
  update_btn (classList_add "copy-md-btn--loading") ;;;
  catch
    (res <~ fetch url ;;
     r <~ on_response mdPath res ;;
     on_text (fst r) (snd r) ;;;
     feedback true)
    (fun _ => feedback false).

(** One click on a button in state [b]. *)
Definition click (doc : Document) (b : Button) : completion unit * World :=
  copyMarkdown doc {| btn := b; trace := [] |}.

End Click.

(** ** The notebook as the specification describes it *)

(** A cell: its kind and its source lines; its text is the lines
    concatenated. *)
Record Cell : Type := {
  kind : string;
  source_lines : list string
}.

Definition cell_text (c : Cell) : string :=
  String.concat "" (source_lines c).

(** What one cell contributes, in the specification's words: the literal
    text of a markdown cell, the text of a code cell inside a fenced block
    labelled [python], nothing for any other kind. *)
Definition spec_fragment (c : Cell) : list string :=
  if String.eqb (kind c) "markdown" then [cell_text c]
  else if String.eqb (kind c) "code"
       then ["```" ++ "python" ++ LF ++ cell_text c ++ LF ++ "```"]
       else [].

(** The fragments of all cells, in cell order, with one blank line between
    consecutive fragments. *)
Definition spec_notebook_text (cells : list Cell) : string :=
  String.concat (LF ++ LF) (flat_map spec_fragment cells).

(** Reading a parsed JSON value as a notebook.  A [source] is an array of
    strings; a cell without [source] has no lines, a notebook without
    [cells] has no cells. *)
Fixpoint as_lines (l : list value) : option (list string) :=
  match l with
  | [] => Some []
  | VStr s :: rest => option_map (cons s) (as_lines rest)
  | _ :: _ => None
  end.

Definition as_cell (v : value) : option Cell :=
  match v with
  | VObj props =>
      match lookup "cell_type" props with
      | Some (VStr k) =>
          match lookup "source" props with
          | None => Some {| kind := k; source_lines := [] |}
          | Some (VArr l) =>
              option_map (fun ls => {| kind := k; source_lines := ls |})
                         (as_lines l)
          | Some _ => None
          end
      | _ => None
      end
  | _ => None
  end.

Fixpoint as_cells (l : list value) : option (list Cell) :=
  match l with
  | [] => Some []
  | v :: rest =>
      match as_cell v, as_cells rest with
      | Some c, Some cs => Some (c :: cs)
      | _, _ => None
      end
  end.

Definition as_notebook (nb : value) : option (list Cell) :=
  match nb with
  | VObj props =>
      match lookup "cells" props with
      | None => Some []
      | Some (VArr l) => as_cells l
      | Some _ => None
      end
  | _ => None
  end.

(** [pat] occurs in [s]. *)
Definition occurs (pat s : string) : Prop :=
  exists a b, s = a ++ pat ++ b.

(** The last character of a string. *)
Fixpoint last_char (s : string) : option ascii :=
  match s with
  | EmptyString => None
  | String c EmptyString => Some c
  | String _ s' => last_char s'
  end.

(** *** Outcomes of a click

    The states a click can end in, written out; [click_outcome] below shows
    that [click] computes exactly these. *)

Definition loading (b : Button) : Button :=
  classList_add "copy-md-btn--loading" b.

(** The chain was rejected somewhere after the events [tr]; the [catch]
    callback ran. *)
Definition failed (b : Button) (tr : list event) : completion unit * World :=
  (Normal tt,
   {| btn := showFeedback (loading b) false;
      trace := (tr ++ [EFeedback false])%list |}).

(** A response with [ok] set was obtained for [path] after the events
    [tr]. *)
Definition after_response (host : Host) (b : Button) (tr : list event)
    (path : string) (res : Response) : completion unit * World :=
  match body res with
  | None => failed b tr
  | Some t =>
      match normalize host t path with
      | Normal t' =>
          if clipboard_writeText host t'
          then (Normal tt,
                {| btn := showFeedback (loading b) true;
                   trace := (tr ++ [ENormalize t path; EPublish t';
                                    EFeedback true])%list |})
          else failed b (tr ++ [ENormalize t path; EPublish t'])%list
      | Throw _ => failed b (tr ++ [ENormalize t path])%list
      | Unmodelled =>
          (Unmodelled,
           {| btn := loading b;
              trace := (tr ++ [ENormalize t path])%list |})
      end
  end.

Definition outcome (host : Host) (doc : Document) (b : Button)
  : completion unit * World :=
  let p := getMarkdownPath doc in
  let u := REPO_RAW_BASE ++ p in
  match network host 0 u with
  | None => failed b [EFetch u]
  | Some res =>
      if ok res then after_response host b [EFetch u] p res
      else
        let u' := REPO_RAW_BASE ++ altPath p in
        match network host 1 u' with
        | None => failed b [EFetch u; EFetch u']
        | Some res2 =>
            if ok res2
            then after_response host b [EFetch u; EFetch u'] (altPath p) res2
            else failed b [EFetch u; EFetch u']
        end
  end.

(** Document contexts without an edit link. *)
Definition at_location (pathname : string) : Document :=
  {| editLink := None; pathname := pathname |}.

Arguments REPO_RAW_BASE : simpl never.
Arguments ICON : simpl never.

(** *** Sample pages and hosts *)

(** A page whose edit link points at [api/Foo.md]. *)
Definition foo_page : Document :=
  {| editLink :=
       Some (Some
         "https://github.com/stanfordnlp/dspy/blob/main/docs/docs/api/Foo.md");
     pathname := "/api/Foo/" |}.

(** A page written in MDX. *)
Definition together_page : Document :=
  {| editLink :=
       Some (Some
         ("https://github.com/stanfordnlp/dspy/blob/main/docs/docs/"
          ++ "deep-dive/language_model_clients/remote_models/Together.mdx"));
     pathname := "/deep-dive/language_model_clients/remote_models/Together/" |}.

(** A notebook page. *)
Definition notebook_page : Document :=
  {| editLink :=
       Some (Some
         ("https://github.com/stanfordnlp/dspy/blob/main/docs/docs/"
          ++ "tutorials/custom_module.ipynb"));
     pathname := "/tutorials/custom_module/" |}.

Definition not_found : Response :=
  {| ok := false; body := Some "404: Not Found" |}.

(** The notebook [[markdown "# Title", code "print(1)"]], parsed. *)
Definition title_notebook : value :=
  VObj [("cells",
         VArr [VObj [("cell_type", VStr "markdown");
                     ("metadata", VObj []);
                     ("source", VArr [VStr "# Title"])];
               VObj [("cell_type", VStr "code");
                     ("metadata", VObj []);
                     ("source", VArr [VStr "print(1)"])]]);
        ("nbformat", VNum "4")].

(** A host on which every request is answered 404. *)
Definition host_404 : Host :=
  {| JSON_parse := fun _ => None;
     network := fun _ _ => Some not_found;
     clipboard_writeText := fun _ => true |}.

(** A host that serves only the retry, whose body parses to
    [title_notebook]. *)
Definition host_index : Host :=
  {| JSON_parse := fun _ => Some title_notebook;
     network := fun n _ =>
       if Nat.eqb n 0 then Some not_found
       else Some {| ok := true; body := Some "{...}" |};
     clipboard_writeText := fun _ => true |}.

(** *** Reading a trace *)

Definition is_publish (e : event) : bool :=
  match e with EPublish _ => true | _ => false end.

Definition is_feedback (e : event) : bool :=
  match e with EFeedback _ => true | _ => false end.

(** The class [showFeedback] adds. *)
Definition feedback_class (success : bool) : string :=
  if success then "copy-md-btn--success" else "copy-md-btn--error".

(** The three classes the script toggles on the button. *)
Definition state_classes : list string :=
  ["copy-md-btn--loading"; "copy-md-btn--success"; "copy-md-btn--error"].

(** None of the state classes is set. *)
Definition idle (b : Button) : Prop :=
  forall c, In c state_classes -> ~ In c (classList b).

(** ** The page and [createButton] *)

(** The part of the DOM the script looks at: elements with their tag, class
    list, other attributes and child nodes, and text nodes. *)
Inductive node : Type :=
  | Elem (tag : string) (classes : list string)
         (attrs : list (string * string)) (children : list node)
  | Text (data : string).

(** The document: its root element, [None] once that has been removed. *)
Definition Dom : Type := option node.

(** An element is named by the child indices that lead to it from the root;
    the empty path is the root. *)
Definition node_path : Type := list nat.

Definition has_class (c : string) (n : node) : bool :=
  match n with
  | Elem _ classes _ _ => existsb (String.eqb c) classes
  | Text _ => false
  end.

(** The first child, from index [i] on, in which [find] finds something. *)
Definition scan_children (find : node -> option node_path)
  : list node -> nat -> option node_path :=
  fix scan (l : list node) (i : nat) : option node_path :=
    match l with
    | [] => None
    | c :: rest =>
        match find c with
        | Some q => Some (i :: q)
        | None => scan rest (S i)
        end
    end.

(** The first node in document order that satisfies [p]. *)
Fixpoint first_match (p : node -> bool) (n : node) : option node_path :=
  if p n then Some []
  else match n with
       | Elem _ _ _ children => scan_children (first_match p) children 0
       | Text _ => None
       end.

(** [document.querySelector("." + c)]. *)
Definition querySelector (c : string) (d : Dom) : option node_path :=
  match d with
  | Some root => first_match (has_class c) root
  | None => None
  end.

Definition with_children (f : list node -> list node) (n : node) : node :=
  match n with
  | Elem tag classes attrs children => Elem tag classes attrs (f children)
  | Text _ => n
  end.

Fixpoint update_nth {A} (i : nat) (f : A -> A) (l : list A) : list A :=
  match i, l with
  | _, [] => []
  | O, x :: rest => f x :: rest
  | S k, x :: rest => x :: update_nth k f rest
  end.

Fixpoint insert_nth {A} (i : nat) (x : A) (l : list A) : list A :=
  match i, l with
  | O, _ => x :: l
  | S k, [] => []
  | S k, y :: rest => y :: insert_nth k x rest
  end.

Fixpoint remove_nth {A} (i : nat) (l : list A) : list A :=
  match i, l with
  | _, [] => []
  | O, _ :: rest => rest
  | S k, y :: rest => y :: remove_nth k rest
  end.

(** [parent.insertBefore(new, ref)] where [q] is the path of [ref] below
    [n]. *)
Fixpoint insertBefore (q : node_path) (new : node) (n : node) : node :=
  match q with
  | [] => n
  | [i] => with_children (insert_nth i new) n
  | i :: rest => with_children (update_nth i (insertBefore rest new)) n
  end.

(** The node below [n] at path [q], detached from its parent. *)
Fixpoint remove_at (q : node_path) (n : node) : node :=
  match q with
  | [] => n
  | [i] => with_children (remove_nth i) n
  | i :: rest => with_children (update_nth i (remove_at rest)) n
  end.

(** [el.remove()] for the element at [q]. *)
Definition remove (q : node_path) (d : Dom) : Dom :=
  match d, q with
  | None, _ => None
  | Some _, [] => None
  | Some root, _ => Some (remove_at q root)
  end.

Fixpoint node_at (q : node_path) (n : node) : option node :=
  match q with
  | [] => Some n
  | i :: rest =>
      match n with
      | Elem _ _ _ children =>
          match nth_error children i with
          | Some c => node_at rest c
          | None => None
          end
      | Text _ => None
      end
  end.

(** The nodes the HTML parser builds from [ICON]. *)
Definition ICON_nodes : list node :=
  [Elem "svg" []
     [("xmlns", "http://www.w3.org/2000/svg"); ("viewBox", "0 0 24 24")]
     [Elem "path" []
        [("d",
          "M16 1H4c-1.1 0-2 .9-2 2v14h2V3h12V1zm3 4H8c-1.1 0-2 .9-2 2v14"
          ++ "c0 1.1.9 2 2 2h11c1.1 0 2-.9 2-2V7c0-1.1-.9-2-2-2zm0 16H8V7h11v14z")]
        []]].

(** The anchor [createButton] builds; its click listener runs
    [copyMarkdown]. *)
Definition copy_button : node :=
  Elem "a" ["md-content__button"; "md-icon"; "copy-md-btn"]
    [("title", "Copy page as Markdown");
     ("href", "#");
     ("aria-label", "Copy page as Markdown")]
    (ICON_nodes ++ [Text " Copy page"]).

Definition createButton (d : Dom) : Dom :=
  match d with
  | None => d
  | Some root =>
      match querySelector "md-content__button" d with
      | None => d                                   (* no actions area *)
      | Some [] => d                                (* no parent element *)
      | Some actionsContainer =>
          Some (insertBefore actionsContainer copy_button root)
      end
  end.

(** The callback subscribed to [document$]: it runs after every page
    navigation. *)
Definition on_navigate (d : Dom) : Dom :=
  let d :=
    match querySelector "copy-md-btn" d with
    | Some existing => remove existing d
    | None => d
    end in
  createButton d.

(** No node on the way to [q], and none before it in document order,
    satisfies [p]. *)
Fixpoint clear_before (p : node -> bool) (q : node_path) (n : node) : Prop :=
  match q with
  | [] => True
  | i :: rest =>
      p n = false /\
      match n with
      | Elem _ _ _ children =>
          Forall (fun c => first_match p c = None) (firstn i children) /\
          match nth_error children i with
          | Some c => clear_before p rest c
          | None => False
          end
      | Text _ => False
      end
  end.

(** The path of the sibling that follows the node at [q]. *)
Fixpoint next_sibling (q : node_path) : node_path :=
  match q with
  | [] => []
  | [i] => [S i]
  | i :: rest => i :: next_sibling rest
  end.

(** A small page: the article with its edit action. *)
Definition sample_page : node :=
  Elem "html" [] []
    [Elem "body" [] []
       [Elem "article" ["md-content__inner"] []
          [Elem "a" ["md-content__button"; "md-icon"]
             [("title", "Edit this page")] [];
           Elem "h1" [] [] [Text "FAQs"]]]].

(** ** The earlier revision of the script

    [docs/js/copy-as-markdown.js] as it was before notebooks were handled:
    [getMarkdownPath], [showFeedback] and [createButton] are the same; the
    retry rewrites [.md] only, and the fetched text goes to the clipboard
    without a conversion step. *)

Module Earlier.
Section Click.

Variable host : Host.

Definition altPath (mdPath : string) : string :=
  replace_at_end ".md" "/index.md" mdPath.

(** The first [then] callback. *)
Definition on_response (mdPath : string) (res : Response) : M string :=
  if negb (ok res) then
    res2 <~ fetch host (REPO_RAW_BASE ++ altPath mdPath) ;;
    if negb (ok res2) then
      settle (Throw (Error "Could not fetch markdown source"))
    else text res2
  else text res.

Definition copyMarkdown (doc : Document) : M unit :=
  let mdPath := getMarkdownPath doc in
  let url := REPO_RAW_BASE ++ mdPath in
  update_btn (classList_add "copy-md-btn--loading") ;;;
  catch
    (res <~ fetch host url ;;
     t <~ on_response mdPath res ;;
     publish host t ;;;
     feedback true)
    (fun _ => feedback false).

Definition click (doc : Document) (b : Button) : completion unit * World :=
  copyMarkdown doc {| btn := b; trace := [] |}.

End Click.
End Earlier.

(** The events both revisions have. *)
Definition is_shared (e : event) : bool :=
  match e with ENormalize _ _ => false | _ => true end.

(** A cell the loop passes over: its source can be read, and its
    [cell_type] is neither ["markdown"] nor ["code"]. *)
Definition passed_over (cell : value) : Prop :=
  (exists s, cell_source cell = Normal s) /\
  forall t, prop "cell_type" cell = Normal (Some (VStr t)) ->
            t <> "markdown" /\ t <> "code".

(** *** Cells whose source can be read *)

(** A value that [join] can print: anything but an object with a property
    named [toString], alone or inside nested arrays. *)
Fixpoint printable (v : value) : bool :=
  match v with
  | VArr elems => forallb printable elems
  | VObj props =>
      match lookup "toString" props with
      | None => true
      | Some _ => false
      end
  | _ => true
  end.

(** A [source] that does not stop the conversion: none at all, one of
    [null], [false], [0] and the empty string, or an array of printable
    values. *)
Definition source_readable (source : option value) : bool :=
  match source with
  | None => true
  | Some VNull => true
  | Some (VBool b) => negb b
  | Some (VNum p) => String.eqb p "0"
  | Some (VStr s) => String.eqb s ""
  | Some (VArr lines) => forallb printable lines
  | Some (VObj _) => false
  end.

(** A cell that does not stop the conversion: not [null], and when it is an
    object its [source] is readable. *)
Definition cell_readable (cell : value) : bool :=
  match cell with
  | VNull => false
  | VObj props => source_readable (lookup "source" props)
  | _ => true
  end.

(** ** Strings *)

Lemma eqb_length_neq (s t : string) :
  String.length s <> String.length t -> String.eqb s t = false.
Proof.
  intros H. apply String.eqb_neq. intros ->. now apply H.
Qed.

Lemma length_app (s t : string) :
  String.length (s ++ t) = String.length s + String.length t.
Proof.
  induction s as [|c s IH]; simpl; [reflexivity | now rewrite IH].
Qed.

Lemma app_assoc_s (a b c : string) : (a ++ b) ++ c = a ++ b ++ c.
Proof.
  induction a as [|x a IH]; simpl; [reflexivity | now rewrite IH].
Qed.

Lemma app_nil_r_s (s : string) : s ++ "" = s.
Proof.
  induction s as [|c s IH]; simpl; [reflexivity | now rewrite IH].
Qed.

Lemma endsWith_iff (s suffix : string) :
  endsWith s suffix = true <-> exists pre, s = pre ++ suffix.
Proof.
  induction s as [|c s IH]; cbn [endsWith].
  - destruct (String.eqb_spec "" suffix) as [<-|Hne].
    + split; [now exists "" | reflexivity].
    + split; [discriminate|].
      intros [pre E]. destruct pre; simpl in E;
        [now elim Hne | discriminate].
  - destruct (String.eqb_spec (String c s) suffix) as [<-|Hne].
    + split; [now exists "" | reflexivity].
    + rewrite IH. split.
      * intros [pre ->]. now exists (String c pre).
      * intros [pre E]. destruct pre as [|c' pre]; simpl in E.
        -- now elim Hne.
        -- injection E as _ ->. now exists pre.
Qed.

Lemma endsWith_app (pre suffix : string) :
  endsWith (pre ++ suffix) suffix = true.
Proof. apply endsWith_iff. now exists pre. Qed.

Lemma endsWith_tail (c : ascii) (s suffix : string) :
  endsWith (String c s) suffix = false -> endsWith s suffix = false.
Proof.
  intros H. destruct (endsWith s suffix) eqn:E; [|reflexivity].
  apply endsWith_iff in E. destruct E as [pre ->].
  rewrite <- H. symmetry. apply endsWith_iff. now exists (String c pre).
Qed.

Lemma replace_at_end_app (suffix repl pre : string) :
  replace_at_end suffix repl (pre ++ suffix) = pre ++ repl.
Proof.
  induction pre as [|c pre IH].
  - destruct suffix; cbn [append replace_at_end];
      now rewrite String.eqb_refl.
  - cbn [append replace_at_end]. rewrite IH.
    replace (String.eqb (String c (pre ++ suffix)) suffix) with false;
      [reflexivity|].
    symmetry. apply eqb_length_neq. simpl. rewrite length_app. lia.
Qed.

Lemma replace_at_end_id (suffix repl s : string) :
  endsWith s suffix = false -> replace_at_end suffix repl s = s.
Proof.
  induction s as [|c s IH]; intros H.
  - cbn [endsWith replace_at_end] in *.
    destruct (String.eqb "" suffix); [discriminate|reflexivity].
  - pose proof (endsWith_tail _ _ _ H) as Ht.
    cbn [endsWith replace_at_end] in *.
    destruct (String.eqb (String c s) suffix); [discriminate|].
    now rewrite IH.
Qed.

Lemma prefix_iff (p s : string) :
  String.prefix p s = true <-> exists t, s = p ++ t.
Proof.
  revert s. induction p as [|c p IH]; intros s.
  - destruct s; simpl; (split; [eauto | reflexivity]).
  - destruct s as [|c' s]; cbn [String.prefix append].
    + split; [discriminate | intros [t E]; discriminate].
    + destruct (ascii_dec c c') as [<-|Hne].
      * rewrite IH. split; intros [t E]; exists t.
        -- now rewrite E.
        -- now injection E.
      * split; [discriminate|]. intros [t E]. injection E as E1 _.
        now elim Hne.
Qed.

Lemma substring_from_app (a b : string) :
  substring_from (String.length a) (a ++ b) = b.
Proof.
  induction a as [|c a IH]; simpl; [now destruct b | exact IH].
Qed.

(** [indexOf] finds the first occurrence. *)
Lemma indexOf_Some (s pat : string) (i : nat) :
  indexOf s pat = Some i ->
  exists pre post,
    s = pre ++ pat ++ post /\ String.length pre = i /\
    forall a b, s = a ++ pat ++ b -> i <= String.length a.
Proof.
  revert i. induction s as [|c s IH]; intros i; cbn [indexOf].
  - destruct (String.prefix pat "") eqn:P; [|discriminate].
    intros [= <-]. apply prefix_iff in P. destruct P as [t E].
    exists "", t. repeat split; [exact E | intros; lia].
  - destruct (String.prefix pat (String c s)) eqn:P.
    + intros [= <-]. apply prefix_iff in P. destruct P as [t E].
      exists "", t. repeat split; [exact E | intros; lia].
    + destruct (indexOf s pat) as [j|] eqn:Ij; [|discriminate].
      cbn [option_map]. intros [= <-].
      destruct (IH j eq_refl) as (pre & post & E & L & Hmin).
      exists (String c pre), post. repeat split.
      * cbn [append]. now rewrite E.
      * cbn [String.length]. now rewrite L.
      * intros a b Eab. destruct a as [|c' a]; cbn [append] in Eab.
        -- exfalso. assert (String.prefix pat (String c s) = true) as Q
             by (apply prefix_iff; now exists b).
           rewrite Q in P. discriminate.
        -- injection Eab as _ Eab. cbn [String.length].
           apply le_n_S. eapply Hmin; eauto.
Qed.

Lemma indexOf_occurs (s pat : string) :
  occurs pat s -> indexOf s pat <> None.
Proof.
  intros (a & b & ->). induction a as [|c a IH].
  - cbn [append].
    assert (String.prefix pat (pat ++ b) = true) as Q
      by (apply prefix_iff; now exists b).
    destruct (pat ++ b); cbn [indexOf]; rewrite Q; discriminate.
  - cbn [append indexOf].
    destruct (String.prefix pat (String c (a ++ pat ++ b))); [discriminate|].
    destruct (indexOf (a ++ pat ++ b) pat); [discriminate | now elim IH].
Qed.

Lemma last_char_app (a : string) (c : ascii) (t : string) :
  last_char (a ++ String c t) = last_char (String c t).
Proof.
  induction a as [|x a IH]; [reflexivity|].
  cbn [append]. rewrite <- IH. cbn [last_char].
  destruct (a ++ String c t) eqn:E; [|reflexivity].
  destruct a; discriminate.
Qed.

(** Two suffixes of one string end in the same character. *)
Lemma endsWith_last (s p q : string) (c d : ascii) :
  endsWith s (p ++ String c "") = true ->
  endsWith s (q ++ String d "") = true -> c = d.
Proof.
  intros [x Hx]%endsWith_iff [y Hy]%endsWith_iff.
  assert (last_char s = Some c) as Lc
    by (rewrite Hx, <- app_assoc_s; apply last_char_app).
  assert (last_char s = Some d) as Ld
    by (rewrite Hy, <- app_assoc_s; apply last_char_app).
  congruence.
Qed.

Lemma md_not_slash (s : string) :
  endsWith s ".md" = true -> endsWith s "/" = false.
Proof.
  intros H. destruct (endsWith s "/") eqn:E; [|reflexivity].
  pose proof (endsWith_last s ".m" "" "d"%char "/"%char H E). discriminate.
Qed.

Lemma md_not_ipynb (s : string) :
  endsWith s ".md" = true -> endsWith s ".ipynb" = false.
Proof.
  intros H. destruct (endsWith s ".ipynb") eqn:E; [|reflexivity].
  pose proof (endsWith_last s ".m" ".ipyn" "d"%char "b"%char H E).
  discriminate.
Qed.

Lemma strip_leading_slash_md (s : string) :
  endsWith s ".md" = true -> endsWith (strip_leading_slash s) ".md" = true.
Proof.
  intros H. destruct s as [|c s]; [exact H|].
  cbn [strip_leading_slash]. destruct (Ascii.eqb_spec c "/"); [|exact H].
  subst c. apply endsWith_iff in H. destruct H as [pre E].
  destruct pre as [|c' pre]; [discriminate|].
  injection E as _ ->. apply endsWith_app.
Qed.

Lemma strip_leading_slash_not_md (s : string) :
  endsWith s ".md" = false -> endsWith (strip_leading_slash s) ".md" = false.
Proof.
  intros H. destruct s as [|c s]; [exact H|].
  cbn [strip_leading_slash]. destruct (Ascii.eqb c "/"); [|exact H].
  eapply endsWith_tail; eauto.
Qed.

(** ** Path resolution *)

Lemma path_from_location_md (p : string) :
  endsWith p ".md" = true -> path_from_location p = strip_leading_slash p.
Proof.
  intros H. unfold path_from_location, strip_trailing_slash.
  rewrite (replace_at_end_id _ _ _ (md_not_slash _ H)). cbv zeta.
  rewrite (strip_leading_slash_md _ H).
  destruct (String.eqb_spec p "") as [E|_]; [rewrite E in H; discriminate|].
  destruct (String.eqb_spec p "/") as [E|_]; [|reflexivity].
  rewrite E in H. discriminate.
Qed.

Lemma path_from_location_plain (p : string) :
  p <> "" -> endsWith p "/" = false -> endsWith p ".md" = false ->
  path_from_location p = strip_leading_slash p ++ ".md".
Proof.
  intros Hne Hs Hm. unfold path_from_location, strip_trailing_slash.
  rewrite (replace_at_end_id _ _ _ Hs). cbv zeta.
  rewrite (strip_leading_slash_not_md _ Hm).
  destruct (String.eqb_spec p "") as [E|_]; [now elim Hne|].
  destruct (String.eqb_spec p "/") as [E|_]; [|reflexivity].
  rewrite E in Hs. discriminate.
Qed.

(** ** What a click computes *)

Lemma click_outcome (host : Host) (doc : Document) (b : Button) :
  click host doc b = outcome host doc b.
Proof.
  unfold click, outcome, copyMarkdown, on_response, on_text, publish,
    feedback, fetch, text, emit, update_btn, settle, ret, catch, bind,
    after_response, failed, loading.
  cbn [trace btn requests List.length app fst snd].
  destruct (network host 0 _) as [res|]; [|reflexivity].
  destruct (ok res); cbn [negb trace btn requests List.length app fst snd].
  - destruct (body res) as [t|]; [|reflexivity].
    cbn [fst snd trace btn app].
    destruct (normalize host t _) as [t'| |]; try reflexivity.
    cbn [fst snd trace btn app].
    destruct (clipboard_writeText host t'); reflexivity.
  - destruct (network host 1 _) as [res2|]; [|reflexivity].
    destruct (ok res2); cbn [negb trace btn app fst snd]; [|reflexivity].
    destruct (body res2) as [t|]; [|reflexivity].
    cbn [fst snd trace btn app].
    destruct (normalize host t _) as [t'| |]; try reflexivity.
    cbn [fst snd trace btn app].
    destruct (clipboard_writeText host t'); reflexivity.
Qed.

Lemma href_of_Some (href : string) : href_of (Some href) = href.
Proof.
  unfold href_of. destruct (String.eqb_spec href ""); congruence.
Qed.

Lemma altPath_md (stem : string) :
  altPath (stem ++ ".md") = stem ++ "/index.md".
Proof.
  unfold altPath. rewrite (md_not_ipynb _ (endsWith_app stem ".md")).
  apply replace_at_end_app.
Qed.

Lemma altPath_ipynb (stem : string) :
  altPath (stem ++ ".ipynb") = stem ++ "/index.ipynb".
Proof.
  unfold altPath. rewrite endsWith_app. apply replace_at_end_app.
Qed.

Lemma altPath_other (p : string) :
  endsWith p ".md" = false -> endsWith p ".ipynb" = false -> altPath p = p.
Proof.
  intros Hm Hn. unfold altPath. rewrite Hn. now apply replace_at_end_id.
Qed.

(** The first request of a click asks for the resolved path under the
    fixed base. *)
Lemma first_request (host : Host) (doc : Document) (b : Button) :
  hd_error (requests (trace (snd (click host doc b)))) =
    Some (REPO_RAW_BASE ++ getMarkdownPath doc).
Proof.
  rewrite click_outcome. unfold outcome, after_response, failed.
  repeat match goal with
         | |- context [match ?x with _ => _ end] => destruct x
         end; reflexivity.
Qed.

(** A click never lets a rejection escape: the [catch] callback turns each
    one into the failed feedback. *)
Lemma no_uncaught (host : Host) (doc : Document) (b : Button) (e : error) :
  fst (click host doc b) <> Throw e.
Proof.
  rewrite click_outcome. unfold outcome, after_response, failed.
  repeat match goal with
         | |- context [match ?x with _ => _ end] => destruct x
         end; discriminate.
Qed.

(** A click that settles ends with one call of [showFeedback], and the
    button shows nothing but whether the copy succeeded. *)
Lemma settles_with_feedback (host : Host) (doc : Document) (b : Button) :
  fst (click host doc b) = Normal tt ->
  exists tr success,
    trace (snd (click host doc b)) = (tr ++ [EFeedback success])%list /\
    btn (snd (click host doc b)) =
      showFeedback (classList_add "copy-md-btn--loading" b) success.
Proof.
  rewrite click_outcome. unfold outcome, after_response, failed, loading.
  repeat match goal with
         | |- context [match ?x with _ => _ end] => destruct x
         end; cbn [fst snd trace btn]; intros H; try discriminate H;
    eauto.
  all: eexists _, true; split; [|reflexivity].
  all: match goal with
       | |- (?tr ++ [?a; ?b; ?c])%list = _ =>
           instantiate (1 := (tr ++ [a; b])%list);
           now rewrite <- app_assoc
       end.
Qed.

(** ** Properties of path resolution *)

(** C4: when the target of the edit link contains ["docs/docs/"], the
    resolved path is what follows the first occurrence of that marker, and
    the click requests the fixed base followed by that path. *)
Theorem edit_link_path (doc : Document) (href : string) :
  editLink doc = Some (Some href) ->
  occurs marker href ->
  exists pre path,
    href = pre ++ marker ++ path /\
    (forall a b, href = a ++ marker ++ b ->
                 String.length pre <= String.length a) /\
    getMarkdownPath doc = path /\
    forall host b,
      hd_error (requests (trace (snd (click host doc b)))) =
        Some (REPO_RAW_BASE ++ path).
Proof.
  intros HL Hocc. unfold getMarkdownPath. rewrite HL, href_of_Some.
  destruct (indexOf href marker) as [i|] eqn:I;
    [|now apply indexOf_occurs in Hocc].
  destruct (indexOf_Some _ _ _ I) as (pre & path & E & L & Hmin).
  exists pre, path. split; [exact E|]. split.
  { intros a b Eab. rewrite L. eauto. }
  assert (substring_from (i + String.length marker) href = path) as G.
  { rewrite E, <- L, <- length_app, <- app_assoc_s.
    apply substring_from_app. }
  split; [exact G|].
  intros host b. rewrite first_request. unfold getMarkdownPath.
  now rewrite HL, href_of_Some, I, G.
Qed.

Lemma edit_link_path_witness :
  editLink foo_page =
    Some (Some
      "https://github.com/stanfordnlp/dspy/blob/main/docs/docs/api/Foo.md") /\
  getMarkdownPath foo_page = "api/Foo.md" /\
  forall host b,
    hd_error (requests (trace (snd (click host foo_page b)))) =
      Some (REPO_RAW_BASE ++ "api/Foo.md").
Proof.
  split; [reflexivity|].
  destruct (edit_link_path foo_page
    "https://github.com/stanfordnlp/dspy/blob/main/docs/docs/api/Foo.md")
    as (pre & path & _ & _ & G & R).
  - reflexivity.
  - exists "https://github.com/stanfordnlp/dspy/blob/main/", "api/Foo.md".
    reflexivity.
  - assert (path = "api/Foo.md") as -> by (rewrite <- G; reflexivity).
    split; [reflexivity | exact R].
Defined.

(** C5, as stated, fails: a path that ends in [.md] and starts with a slash
    does not come back unchanged. *)
Lemma md_path_loses_slash :
  endsWith "/faqs.md" ".md" = true /\
  getMarkdownPath (at_location "/faqs.md") <> "/faqs.md".
Proof. split; [reflexivity | discriminate]. Qed.

(** C5, amended: a navigational path that ends in [.md] is returned with
    its leading slash removed and nothing appended; it comes back unchanged
    when it does not start with a slash. *)
Theorem md_path_kept (p : string) :
  endsWith p ".md" = true ->
  getMarkdownPath (at_location p) = strip_leading_slash p /\
  (String.prefix "/" p = false -> getMarkdownPath (at_location p) = p).
Proof.
  intros H. split; [now apply path_from_location_md|].
  intros Hs. cbn [getMarkdownPath at_location editLink pathname].
  rewrite (path_from_location_md _ H).
  destruct p as [|c p]; [reflexivity|]. cbn [String.prefix] in Hs.
  cbn [strip_leading_slash].
  destruct (Ascii.eqb_spec c "/") as [->|_]; [|reflexivity].
  destruct p; discriminate.
Qed.

Lemma md_path_kept_witness :
  endsWith "/faqs.md" ".md" = true /\
  getMarkdownPath (at_location "/faqs.md") = "faqs.md".
Proof.
  split; [reflexivity|].
  exact (proj1 (md_path_kept "/faqs.md" eq_refl)).
Defined.

(** C6: a navigational path without trailing slash and without the [.md]
    extension loses its leading slash and gains [.md], so [/guide/intro]
    resolves to [guide/intro.md].  A navigational path is the pathname of a
    served page and is never empty; the empty string stands for the root,
    which resolves to the default document. *)
Theorem plain_path_suffixed (p : string) :
  p <> "" -> endsWith p "/" = false -> endsWith p ".md" = false ->
  getMarkdownPath (at_location p) = strip_leading_slash p ++ ".md".
Proof. intros. now apply path_from_location_plain. Qed.

Lemma plain_path_suffixed_witness :
  "/guide/intro" <> "" /\
  endsWith "/guide/intro" "/" = false /\
  endsWith "/guide/intro" ".md" = false /\
  getMarkdownPath (at_location "/guide/intro") = "guide/intro.md".
Proof.
  split; [discriminate|]. split; [reflexivity|]. split; [reflexivity|].
  apply (plain_path_suffixed "/guide/intro"); [discriminate | reflexivity..].
Defined.

Lemma path_from_location_ends_md (p : string) :
  endsWith (path_from_location p) ".md" = true.
Proof.
  unfold path_from_location.
  destruct (_ || _); [reflexivity|]. cbv zeta.
  destruct (endsWith (strip_leading_slash _) ".md") eqn:E; [exact E|].
  apply endsWith_app.
Qed.

(** C7: the root path, written ["/"] or empty, resolves to ["index.md"];
    resolution is total, a path built from the location always ends in
    [.md], and every click goes on to request the resolved path. *)
Theorem root_path_default :
  getMarkdownPath (at_location "/") = "index.md" /\
  getMarkdownPath (at_location "") = "index.md" /\
  (forall p, endsWith (getMarkdownPath (at_location p)) ".md" = true) /\
  (forall doc, exists path,
      getMarkdownPath doc = path /\
      forall host b,
        hd_error (requests (trace (snd (click host doc b)))) =
          Some (REPO_RAW_BASE ++ path)).
Proof.
  repeat split; try reflexivity.
  - intros p. apply path_from_location_ends_md.
  - intros doc. exists (getMarkdownPath doc). split; [reflexivity|].
    intros. apply first_request.
Qed.

(** ** Properties of the fetch and its retry *)

(** C2: after a primary response that is not [ok], exactly one more request
    is sent, to the path with its trailing [.md] (or [.ipynb]) replaced by
    [/index.md] (or [/index.ipynb]); when that request succeeds, conversion
    is entered with the alternate path, and what reaches the clipboard is
    the text normalised for the alternate path. *)
Theorem retry_once (host : Host) (doc : Document) (b : Button)
    (res : Response) :
  network host 0 (REPO_RAW_BASE ++ getMarkdownPath doc) = Some res ->
  ok res = false ->
  requests (trace (snd (click host doc b))) =
    [REPO_RAW_BASE ++ getMarkdownPath doc;
     REPO_RAW_BASE ++ altPath (getMarkdownPath doc)] /\
  (forall stem, getMarkdownPath doc = stem ++ ".md" ->
     altPath (getMarkdownPath doc) = stem ++ "/index.md") /\
  (forall stem, getMarkdownPath doc = stem ++ ".ipynb" ->
     altPath (getMarkdownPath doc) = stem ++ "/index.ipynb") /\
  (forall res2 t,
     network host 1 (REPO_RAW_BASE ++ altPath (getMarkdownPath doc))
       = Some res2 ->
     ok res2 = true -> body res2 = Some t ->
     (exists rest,
        trace (snd (click host doc b)) =
          [EFetch (REPO_RAW_BASE ++ getMarkdownPath doc);
           EFetch (REPO_RAW_BASE ++ altPath (getMarkdownPath doc));
           ENormalize t (altPath (getMarkdownPath doc))] ++ rest)%list /\
     (forall t',
        In (EPublish t') (trace (snd (click host doc b))) <->
        normalize host t (altPath (getMarkdownPath doc)) = Normal t')).
Proof.
  intros N O. rewrite click_outcome. unfold outcome. rewrite N, O.
  split; [|split; [|split]].
  - unfold after_response, failed.
    repeat match goal with
           | |- context [match ?x with _ => _ end] => destruct x
           end; reflexivity.
  - intros stem ->. apply altPath_md.
  - intros stem ->. apply altPath_ipynb.
  - intros res2 t N2 O2 B. rewrite N2, O2.
    unfold after_response, failed. rewrite B. split.
    + repeat match goal with
             | |- context [match ?x with _ => _ end] => destruct x
             end; cbn [snd trace app]; eauto.
    + intros t'. split.
      * destruct (normalize host t _) as [t''| |];
          [destruct (clipboard_writeText host t'')|..];
          cbn [snd trace app In]; intros Hin;
          repeat (destruct Hin as [Hin|Hin]; try discriminate Hin);
          try contradiction; congruence.
      * intros ->. destruct (clipboard_writeText host t');
          cbn [snd trace app In]; auto 6.
Qed.

Lemma retry_once_witness :
  network host_index 0 (REPO_RAW_BASE ++ getMarkdownPath notebook_page)
    = Some not_found /\
  ok not_found = false /\
  requests (trace (snd (click host_index notebook_page new_button))) =
    [REPO_RAW_BASE ++ "tutorials/custom_module.ipynb";
     REPO_RAW_BASE ++ "tutorials/custom_module/index.ipynb"].
Proof.
  split; [reflexivity|]. split; [reflexivity|].
  exact (proj1 (retry_once host_index notebook_page new_button not_found
                  eq_refl eq_refl)).
Defined.

(** C3: when neither the primary nor the alternate response is [ok], the
    click sends the two requests and shows the failed feedback; the second
    [then] callback and the clipboard are never reached.  No rejection
    escapes a click, a click that settles leaves the button in a state that
    depends only on success or failure, and a refused clipboard write ends
    in the same failed state. *)
Theorem both_fetches_fail (host : Host) (doc : Document) (b : Button) :
  (forall res res2,
     network host 0 (REPO_RAW_BASE ++ getMarkdownPath doc) = Some res ->
     ok res = false ->
     network host 1 (REPO_RAW_BASE ++ altPath (getMarkdownPath doc))
       = Some res2 ->
     ok res2 = false ->
     click host doc b =
       (Normal tt,
        {| btn := showFeedback (classList_add "copy-md-btn--loading" b) false;
           trace :=
             [EFetch (REPO_RAW_BASE ++ getMarkdownPath doc);
              EFetch (REPO_RAW_BASE ++ altPath (getMarkdownPath doc));
              EFeedback false] |})) /\
  (forall e, fst (click host doc b) <> Throw e) /\
  (fst (click host doc b) = Normal tt ->
   exists tr success,
     trace (snd (click host doc b)) = (tr ++ [EFeedback success])%list /\
     btn (snd (click host doc b)) =
       showFeedback (classList_add "copy-md-btn--loading" b) success) /\
  (forall res t,
     network host 0 (REPO_RAW_BASE ++ getMarkdownPath doc) = Some res ->
     ok res = true -> body res = Some t ->
     endsWith (getMarkdownPath doc) ".ipynb" = false ->
     clipboard_writeText host t = false ->
     click host doc b =
       (Normal tt,
        {| btn := showFeedback (classList_add "copy-md-btn--loading" b) false;
           trace :=
             [EFetch (REPO_RAW_BASE ++ getMarkdownPath doc);
              ENormalize t (getMarkdownPath doc);
              EPublish t;
              EFeedback false] |})).
Proof.
  split; [|split; [|split]].
  - intros res res2 N O N2 O2. rewrite click_outcome. unfold outcome.
    now rewrite N, O, N2, O2.
  - apply no_uncaught.
  - apply settles_with_feedback.
  - intros res t N O B E W. rewrite click_outcome. unfold outcome.
    rewrite N, O. unfold after_response, normalize. now rewrite B, E, W.
Qed.

Lemma both_fetches_fail_witness :
  network host_404 0 (REPO_RAW_BASE ++ getMarkdownPath foo_page)
    = Some not_found /\
  network host_404 1 (REPO_RAW_BASE ++ altPath (getMarkdownPath foo_page))
    = Some not_found /\
  ok not_found = false /\
  trace (snd (click host_404 foo_page new_button)) =
    [EFetch (REPO_RAW_BASE ++ "api/Foo.md");
     EFetch (REPO_RAW_BASE ++ "api/Foo/index.md");
     EFeedback false].
Proof.
  split; [reflexivity|]. split; [reflexivity|]. split; [reflexivity|].
  rewrite (proj1 (both_fetches_fail host_404 foo_page new_button)
             not_found not_found eq_refl eq_refl eq_refl eq_refl).
  reflexivity.
Defined.

(** C10: a resolved path that ends in neither [.md] nor [.ipynb] is its own
    alternate, so the retry asks for the same URL again. *)
Theorem retry_same_url (host : Host) (doc : Document) (b : Button) :
  endsWith (getMarkdownPath doc) ".md" = false ->
  endsWith (getMarkdownPath doc) ".ipynb" = false ->
  altPath (getMarkdownPath doc) = getMarkdownPath doc /\
  forall res,
    network host 0 (REPO_RAW_BASE ++ getMarkdownPath doc) = Some res ->
    ok res = false ->
    requests (trace (snd (click host doc b))) =
      [REPO_RAW_BASE ++ getMarkdownPath doc;
       REPO_RAW_BASE ++ getMarkdownPath doc].
Proof.
  intros Hm Hn. pose proof (altPath_other _ Hm Hn) as A.
  split; [exact A|]. intros res N O.
  rewrite click_outcome. unfold outcome. rewrite N, O, A.
  unfold after_response, failed.
  repeat match goal with
         | |- context [match ?x with _ => _ end] => destruct x
         end; reflexivity.
Qed.

Lemma retry_same_url_witness :
  endsWith (getMarkdownPath together_page) ".md" = false /\
  endsWith (getMarkdownPath together_page) ".ipynb" = false /\
  requests (trace (snd (click host_404 together_page new_button))) =
    [REPO_RAW_BASE
       ++ "deep-dive/language_model_clients/remote_models/Together.mdx";
     REPO_RAW_BASE
       ++ "deep-dive/language_model_clients/remote_models/Together.mdx"].
Proof.
  split; [reflexivity|]. split; [reflexivity|].
  exact (proj2 (retry_same_url host_404 together_page new_button
                  eq_refl eq_refl) not_found eq_refl eq_refl).
Defined.

(** ** Properties of the conversion *)

(** C8: for a path that does not end in [.ipynb] the conversion step
    returns the text as it is, and applying it twice is the same as applying
    it once. *)
Theorem normalize_plain (host : Host) (rawText actualPath : string) :
  endsWith actualPath ".ipynb" = false ->
  normalize host rawText actualPath = Normal rawText /\
  (t <- normalize host rawText actualPath ;; normalize host t actualPath)
    = normalize host rawText actualPath.
Proof.
  intros H. unfold normalize. rewrite H. split; reflexivity.
Qed.

Lemma normalize_plain_witness :
  endsWith "api/Foo.md" ".ipynb" = false /\
  normalize host_index "# Foo" "api/Foo.md" = Normal "# Foo" /\
  (t <- normalize host_index "# Foo" "api/Foo.md" ;;
   normalize host_index t "api/Foo.md")
    = normalize host_index "# Foo" "api/Foo.md".
Proof.
  split; [reflexivity|].
  exact (normalize_plain host_index "# Foo" "api/Foo.md" eq_refl).
Defined.

Lemma join_lines (l : list value) (ls : list string) :
  as_lines l = Some ls -> join "" l = Normal (String.concat "" ls).
Proof.
  revert ls. induction l as [|v rest IH]; intros ls.
  - intros [= <-]. reflexivity.
  - destruct v; try discriminate. cbn [as_lines].
    destruct (as_lines rest) as [ls'|] eqn:E; [|discriminate].
    intros [= <-]. specialize (IH ls' eq_refl).
    destruct rest as [|v' rest'].
    + injection E as <-. reflexivity.
    + change (join "" (VStr s :: v' :: rest'))
        with (t <- join "" (v' :: rest') ;; Normal (s ++ "" ++ t)).
      rewrite IH. cbn [cbind].
      destruct ls' as [|x ls'']; [|reflexivity].
      destruct v'; try discriminate. cbn [as_lines] in E.
      destruct (as_lines rest'); discriminate.
Qed.

Lemma cell_source_spec (v : value) (c : Cell) :
  as_cell v = Some c -> cell_source v = Normal (cell_text c).
Proof.
  unfold as_cell, cell_source, cell_text.
  destruct v as [| | | | |props]; try discriminate.
  destruct (lookup "cell_type" props) as [[| | |k| |]|]; try discriminate.
  cbn [prop cbind].
  destruct (lookup "source" props) as [[| | | |l|]|]; try discriminate.
  - destruct (as_lines l) as [ls|] eqn:E; [|discriminate].
    intros [= <-]. cbn [truthy source_lines]. now apply join_lines.
  - intros [= <-]. reflexivity.
Qed.

Lemma push_cell_spec (v : value) (c : Cell) (parts : list string) :
  as_cell v = Some c ->
  push_cell v parts = Normal (parts ++ spec_fragment c)%list.
Proof.
  intros H. unfold push_cell. rewrite (cell_source_spec _ _ H).
  cbn [cbind]. unfold as_cell in H. unfold spec_fragment.
  destruct v as [| | | | |props]; try discriminate.
  cbn [prop cbind].
  destruct (lookup "cell_type" props) as [[| | |k| |]|]; try discriminate.
  assert (kind c = k) as ->.
  { destruct (lookup "source" props) as [[| | | |l|]|]; try discriminate.
    - destruct (as_lines l); [|discriminate]. now injection H as <-.
    - now injection H as <-. }
  destruct (String.eqb k "markdown"); [reflexivity|].
  destruct (String.eqb k "code"); [reflexivity|].
  now rewrite app_nil_r.
Qed.

Lemma cells_loop_spec (l : list value) (cells : list Cell) :
  as_cells l = Some cells ->
  forall parts,
    cells_loop l parts = Normal (parts ++ flat_map spec_fragment cells)%list.
Proof.
  revert cells. induction l as [|v rest IH]; intros cells.
  - intros [= <-] parts. cbn. now rewrite app_nil_r.
  - cbn [as_cells]. destruct (as_cell v) as [c|] eqn:Ec; [|discriminate].
    destruct (as_cells rest) as [cs|]; [|discriminate].
    intros [= <-] parts. cbn [cells_loop flat_map].
    rewrite (push_cell_spec _ _ _ Ec). cbn [cbind].
    rewrite (IH cs eq_refl). now rewrite <- app_assoc.
Qed.

Lemma notebook_markdown_spec (nb : value) (cells : list Cell) :
  as_notebook nb = Some cells ->
  notebook_markdown nb = Normal (spec_notebook_text cells).
Proof.
  unfold as_notebook, notebook_markdown, cells_of, spec_notebook_text.
  destruct nb as [| | | | |props]; try discriminate. cbn [prop cbind].
  destruct (lookup "cells" props) as [[| | | |l|]|]; try discriminate.
  - intros H. cbn [truthy cbind]. now rewrite (cells_loop_spec _ _ H).
  - intros [= <-]. reflexivity.
Qed.

(** C1: a notebook is rendered cell by cell in the original order, a
    markdown cell as its text, a code cell inside a [python] fence, any
    other cell as nothing, with one blank line between the fragments. *)
Theorem notebook_rendering (host : Host) (rawText actualPath : string)
    (nb : value) (cells : list Cell) :
  endsWith actualPath ".ipynb" = true ->
  JSON_parse host rawText = Some nb ->
  as_notebook nb = Some cells ->
  normalize host rawText actualPath = Normal (spec_notebook_text cells).
Proof.
  intros E P W. unfold normalize, notebookToMarkdown. rewrite E, P.
  now apply notebook_markdown_spec.
Qed.

Lemma notebook_rendering_witness :
  endsWith "tutorials/custom_module/index.ipynb" ".ipynb" = true /\
  JSON_parse host_index "{...}" = Some title_notebook /\
  as_notebook title_notebook =
    Some [ {| kind := "markdown"; source_lines := ["# Title"] |};
           {| kind := "code"; source_lines := ["print(1)"] |} ] /\
  normalize host_index "{...}" "tutorials/custom_module/index.ipynb" =
    Normal ("# Title" ++ LF ++ LF
            ++ "```python" ++ LF ++ "print(1)" ++ LF ++ "```").
Proof.
  split; [reflexivity|]. split; [reflexivity|]. split; [reflexivity|].
  exact (notebook_rendering host_index "{...}"
           "tutorials/custom_module/index.ipynb" title_notebook
           [ {| kind := "markdown"; source_lines := ["# Title"] |};
             {| kind := "code"; source_lines := ["print(1)"] |} ]
           eq_refl eq_refl eq_refl).
Defined.

(** *** Which errors the conversion can raise *)

Lemma value_array_ind (P : value -> Prop) :
  P VNull -> (forall b, P (VBool b)) -> (forall p, P (VNum p)) ->
  (forall s, P (VStr s)) -> (forall l, Forall P l -> P (VArr l)) ->
  (forall props, P (VObj props)) -> forall v, P v.
Proof.
  intros HNull HBool HNum HStr HArr HObj.
  fix IH 1.
  intros [| b | p | s | l | props];
    [exact HNull | apply HBool | apply HNum | apply HStr | | apply HObj].
  apply HArr. induction l as [|x r IHr]; constructor; [apply IH | exact IHr].
Qed.

Lemma join_with_error (f : value -> completion string) (sep : string)
    (l : list value) (e : error) :
  Forall (fun v => forall e, f v = Throw e -> e = TypeError) l ->
  join_with f sep l = Throw e -> e = TypeError.
Proof.
  intros H. revert e. induction H as [|v rest Hv Hrest IH]; intros e.
  - discriminate.
  - assert (forall e, match v with VNull => Normal "" | _ => f v end = Throw e
                      -> e = TypeError) as Hel.
    { intros e'. destruct v; try discriminate; apply Hv. }
    destruct rest as [|v' rest'].
    + apply Hel.
    + change (join_with f sep (v :: v' :: rest'))
        with (s <- match v with VNull => Normal "" | _ => f v end ;;
              t <- join_with f sep (v' :: rest') ;;
              Normal (s ++ sep ++ t)).
      destruct (match v with VNull => Normal "" | _ => f v end) eqn:Ev;
        cbn [cbind]; [|intros [= <-]; now apply Hel | discriminate].
      destruct (join_with f sep (v' :: rest')) eqn:Ej; cbn [cbind];
        try discriminate. intros [= <-]. now apply IH.
Qed.

Lemma ToString_error (v : value) (e : error) :
  ToString v = Throw e -> e = TypeError.
Proof.
  revert e. induction v using value_array_ind; intros e; cbn [ToString];
    try discriminate.
  - destruct b; discriminate.
  - now apply join_with_error.
  - destruct (lookup "toString" props); [now intros [= <-] | discriminate].
Qed.

Lemma cell_source_error (cell : value) (e : error) :
  cell_source cell = Throw e -> e = TypeError.
Proof.
  unfold cell_source.
  destruct cell as [| | | | |props]; cbn [prop cbind]; try discriminate.
  - now intros [= <-].
  - destruct (lookup "source" props) as [v|]; [|discriminate].
    destruct (truthy v); [|discriminate].
    destruct v; try (now intros [= <-]).
    apply join_with_error. apply Forall_forall. intros v _ e'.
    apply ToString_error.
Qed.

Lemma cells_loop_error (cells : list value) (parts : list string)
    (e : error) :
  cells_loop cells parts = Throw e -> e = TypeError.
Proof.
  revert parts. induction cells as [|cell rest IH]; intros parts;
    cbn [cells_loop]; [discriminate|].
  unfold push_cell.
  destruct (cell_source cell) as [src| |] eqn:Es; cbn [cbind];
    [|intros [= <-]; now apply (cell_source_error cell) | discriminate].
  destruct (prop "cell_type" cell) as [ty| |] eqn:Et; cbn [cbind];
    [| |discriminate].
  - assert (exists parts', match ty with
                            | Some (VStr t) =>
                                if String.eqb t "markdown"
                                then Normal (parts ++ [src])%list
                                else if String.eqb t "code"
                                     then Normal (parts ++ [fence src])%list
                                     else Normal parts
                            | _ => Normal parts
                            end = Normal parts') as [parts' ->].
    { destruct ty as [[| | |t| |]|]; eauto.
      destruct (String.eqb t "markdown"); eauto.
      destruct (String.eqb t "code"); eauto. }
    cbn [cbind]. apply IH.
  - destruct cell; discriminate.
Qed.

Lemma notebook_markdown_error (nb : value) (e : error) :
  notebook_markdown nb = Throw e -> e = TypeError.
Proof.
  unfold notebook_markdown.
  destruct (cells_of nb) as [cells| |] eqn:Ec; cbn [cbind];
    [| |discriminate].
  - destruct (cells_loop cells []) eqn:El; cbn [cbind]; try discriminate.
    intros [= <-]. now apply (cells_loop_error cells []).
  - intros [= <-]. unfold cells_of in Ec.
    destruct nb as [| | | | |props]; cbn [prop cbind] in Ec;
      try discriminate; [congruence|].
    destruct (lookup "cells" props) as [v|]; [|discriminate].
    destruct (truthy v); [|discriminate].
    destruct v; try discriminate.
    destruct (lookup "length" props0); discriminate.
Qed.

(** C9: a missing [cells] or [source] is read as empty.  A notebook object
    without [cells] converts to the empty string, a cell without [source]
    has empty text, every notebook-shaped value converts without failure,
    so on text that parses to such a value or not at all the only failure is
    the parser's; and whatever the text, the conversion ends in a syntax
    error exactly when the parser rejects the text. *)
Theorem missing_fields_default (parse : string -> option value) :
  (forall json props,
     parse json = Some (VObj props) -> lookup "cells" props = None ->
     notebookToMarkdown parse json = Normal "") /\
  (forall props,
     lookup "source" props = None -> cell_source (VObj props) = Normal "") /\
  (forall json nb cells,
     parse json = Some nb -> as_notebook nb = Some cells ->
     notebookToMarkdown parse json = Normal (spec_notebook_text cells)) /\
  (forall json e,
     (forall nb, parse json = Some nb -> as_notebook nb <> None) ->
     notebookToMarkdown parse json = Throw e ->
     parse json = None /\ e = SyntaxError) /\
  (forall json,
     notebookToMarkdown parse json = Throw SyntaxError <->
     parse json = None).
Proof.
  split; [|split; [|split; [|split]]].
  - intros json props P L. unfold notebookToMarkdown. rewrite P.
    unfold notebook_markdown, cells_of. cbn [prop cbind]. now rewrite L.
  - intros props L. unfold cell_source. cbn [prop cbind]. now rewrite L.
  - intros json nb cells P W. unfold notebookToMarkdown. rewrite P.
    now apply notebook_markdown_spec.
  - intros json e W. unfold notebookToMarkdown.
    destruct (parse json) as [nb|]; [|now intros [= <-]].
    destruct (as_notebook nb) as [cells|] eqn:A; [|now elim (W nb)].
    rewrite (notebook_markdown_spec _ _ A). discriminate.
  - intros json. unfold notebookToMarkdown.
    destruct (parse json) as [nb|]; [|now split].
    split; [|discriminate]. intros H.
    apply notebook_markdown_error in H. discriminate.
Qed.

Lemma missing_fields_default_witness :
  notebookToMarkdown (fun _ => Some (VObj [("nbformat", VNum "4")])) "{...}"
    = Normal "" /\
  notebookToMarkdown
    (fun _ => Some (VObj [("cells", VArr [VObj [("cell_type", VStr "code")]])]))
    "{...}"
    = Normal ("```python" ++ LF ++ LF ++ "```").
Proof.
  split.
  - exact (proj1 (missing_fields_default
                    (fun _ => Some (VObj [("nbformat", VNum "4")])))
             "{...}" [("nbformat", VNum "4")] eq_refl eq_refl).
  - exact (proj1 (proj2 (proj2 (missing_fields_default
             (fun _ =>
                Some (VObj [("cells",
                             VArr [VObj [("cell_type", VStr "code")]])])))))
             "{...}" _ [ {| kind := "code"; source_lines := [] |} ]
             eq_refl eq_refl).
Defined.

(** Text that parses can still make the conversion throw when it is not
    shaped like a notebook: [null] at the top, [null] as a cell, or a
    [source] that is a non-empty string. *)
Lemma conversion_throws_outside_notebooks :
  notebook_markdown VNull = Throw TypeError /\
  notebook_markdown (VObj [("cells", VArr [VNull])]) = Throw TypeError /\
  notebook_markdown
    (VObj [("cells",
            VArr [VObj [("cell_type", VStr "markdown");
                        ("source", VStr "# Title")]])])
    = Throw TypeError.
Proof. repeat split. Qed.

(** ** Further properties of path resolution *)

Lemma indexOf_None (s pat : string) :
  ~ occurs pat s -> indexOf s pat = None.
Proof.
  intros H. destruct (indexOf s pat) as [i|] eqn:I; [|reflexivity].
  destruct (indexOf_Some _ _ _ I) as (pre & post & E & _).
  elim H. now exists pre, post.
Qed.

(** X1: a trailing slash on the navigational path makes no difference:
    the directory-style URL of a page resolves like the plain one. *)
Theorem trailing_slash_ignored (p : string) :
  endsWith p "/" = false ->
  getMarkdownPath (at_location (p ++ "/")) = getMarkdownPath (at_location p).
Proof.
  intros H. cbn [getMarkdownPath at_location editLink pathname].
  unfold path_from_location, strip_trailing_slash.
  now rewrite replace_at_end_app, app_nil_r_s, (replace_at_end_id _ _ _ H).
Qed.

Lemma trailing_slash_ignored_witness :
  endsWith "/api/modules/RLM" "/" = false /\
  getMarkdownPath (at_location "/api/modules/RLM/") =
    getMarkdownPath (at_location "/api/modules/RLM").
Proof.
  split; [reflexivity|].
  exact (trailing_slash_ignored "/api/modules/RLM" eq_refl).
Defined.

(** X2: an edit link that cannot be used (no [href], or an [href] that
    does not contain the marker) is ignored, and the path is built from the
    location as if there were no link. *)
Theorem unusable_edit_link (doc : Document) (attr : option string) :
  editLink doc = Some attr ->
  ~ occurs marker (href_of attr) ->
  getMarkdownPath doc = getMarkdownPath (at_location (pathname doc)).
Proof.
  intros HL Hno. unfold getMarkdownPath. rewrite HL.
  now rewrite (indexOf_None _ _ Hno).
Qed.

Lemma unusable_edit_link_witness :
  getMarkdownPath {| editLink := Some None; pathname := "/faqs/" |} =
    getMarkdownPath (at_location "/faqs/").
Proof.
  apply (unusable_edit_link {| editLink := Some None; pathname := "/faqs/" |}
           None eq_refl).
  intros (a & b & E). destruct a; discriminate E.
Defined.

(** ** Further properties of the retry path *)

Lemma ipynb_not_md (s : string) :
  endsWith s ".ipynb" = true -> endsWith s ".md" = false.
Proof.
  intros H. destruct (endsWith s ".md") eqn:E; [|reflexivity].
  now rewrite (md_not_ipynb _ E) in H.
Qed.

Lemma altPath_ipynb_iff (p : string) :
  endsWith (altPath p) ".ipynb" = endsWith p ".ipynb".
Proof.
  destruct (endsWith p ".ipynb") eqn:Hn.
  - apply endsWith_iff in Hn. destruct Hn as [stem ->].
    rewrite altPath_ipynb. apply endsWith_iff.
    exists (stem ++ "/index"). now rewrite app_assoc_s.
  - destruct (endsWith p ".md") eqn:Hm.
    + apply endsWith_iff in Hm. destruct Hm as [stem ->].
      rewrite altPath_md. apply md_not_ipynb, endsWith_iff.
      exists (stem ++ "/index"). now rewrite app_assoc_s.
    + now rewrite (altPath_other _ Hm Hn).
Qed.

(** X3: the retry path has the notebook extension exactly when the primary
    path has it, so the conversion applied to a text does not depend on
    which of the two requests delivered it. *)
Theorem altPath_keeps_format (host : Host) (p t : string) :
  endsWith (altPath p) ".ipynb" = endsWith p ".ipynb" /\
  normalize host t (altPath p) = normalize host t p.
Proof.
  split; [apply altPath_ipynb_iff|].
  unfold normalize. now rewrite altPath_ipynb_iff.
Qed.

(** X4: the retry asks for a different path exactly when the resolved path
    ends in [.md] or [.ipynb]. *)
Theorem altPath_fixed_iff (p : string) :
  altPath p = p <->
  endsWith p ".md" = false /\ endsWith p ".ipynb" = false.
Proof.
  split; [|intros [Hm Hn]; now apply altPath_other].
  intros E.
  assert (forall stem ext, stem ++ "/index" ++ ext <> stem ++ ext) as Hlen.
  { intros stem ext Heq. apply (f_equal String.length) in Heq.
    rewrite !length_app in Heq. cbn [String.length] in Heq. lia. }
  destruct (endsWith p ".md") eqn:Hm.
  - apply endsWith_iff in Hm. destruct Hm as [stem ->].
    rewrite altPath_md in E. now apply (Hlen stem ".md") in E.
  - destruct (endsWith p ".ipynb") eqn:Hn; [|now split].
    apply endsWith_iff in Hn. destruct Hn as [stem ->].
    rewrite altPath_ipynb in E. now apply (Hlen stem ".ipynb") in E.
Qed.

(** ** Further properties of a click *)

(** Splits a goal about [click] into the ways a click can go. *)
Ltac click_cases :=
  rewrite ?click_outcome; unfold outcome, after_response, failed, loading;
  repeat match goal with
         | |- context [match ?x with _ => _ end] => destruct x eqn:?
         end;
  cbn [fst snd trace btn app requests List.length filter is_publish
       is_feedback].

(** X5: a page without edit link is never treated as a notebook: the
    second callback always runs with a path that ends in [.md], and what
    reaches the clipboard is the text exactly as it was fetched. *)
Theorem location_page_copied_verbatim (host : Host) (pathname : string)
    (b : Button) (t path : string) :
  In (ENormalize t path)
     (trace (snd (click host (at_location pathname) b))) ->
  endsWith path ".md" = true /\
  normalize host t path = Normal t /\
  forall t',
    In (EPublish t') (trace (snd (click host (at_location pathname) b))) ->
    t' = t.
Proof.
  pose proof (path_from_location_ends_md pathname) as Hmd.
  change (path_from_location pathname)
    with (getMarkdownPath (at_location pathname)) in Hmd.
  assert (endsWith (altPath (getMarkdownPath (at_location pathname))) ".md"
          = true) as Hmd'.
  { apply endsWith_iff in Hmd. destruct Hmd as [stem ->].
    rewrite altPath_md. apply endsWith_iff.
    exists (stem ++ "/index"). now rewrite app_assoc_s. }
  assert (forall p s, endsWith p ".md" = true -> normalize host s p = Normal s)
    as Hplain.
  { intros p s H. unfold normalize. now rewrite (md_not_ipynb _ H). }
  rewrite click_outcome. unfold outcome, after_response, failed.
  repeat match goal with
         | |- context [match ?x with _ => _ end] => destruct x eqn:?
         end;
    cbn [snd trace app In]; intros Hin;
    repeat (destruct Hin as [Hin|Hin]; try discriminate Hin);
    try contradiction;
    injection Hin as <- <-;
    (split; [assumption|]); (split; [now apply Hplain|]);
    intros t' Hin';
    repeat (destruct Hin' as [Hin'|Hin']; try discriminate Hin');
    try contradiction;
    match goal with
    | H : normalize host _ _ = Normal _ |- _ =>
        rewrite Hplain in H by assumption; congruence
    end.
Qed.

Lemma location_page_copied_verbatim_witness :
  In (ENormalize "{...}" "faqs/index.md")
     (trace (snd (click host_index (at_location "/faqs/") new_button))) /\
  endsWith "faqs/index.md" ".md" = true /\
  normalize host_index "{...}" "faqs/index.md" = Normal "{...}".
Proof.
  assert (In (ENormalize "{...}" "faqs/index.md")
            (trace (snd (click host_index (at_location "/faqs/") new_button))))
    as H by (cbn; auto).
  split; [exact H|].
  destruct (location_page_copied_verbatim host_index "/faqs/" new_button
              "{...}" "faqs/index.md" H) as (E & N & _).
  split; [exact E | exact N].
Defined.

(** X6: a click sends one or two requests, writes to the clipboard at most
    once and calls [showFeedback] at most once. *)
Theorem click_effects_bounded (host : Host) (doc : Document) (b : Button) :
  1 <= List.length (requests (trace (snd (click host doc b)))) <= 2 /\
  List.length (filter is_publish (trace (snd (click host doc b)))) <= 1 /\
  List.length (filter is_feedback (trace (snd (click host doc b)))) <= 1.
Proof. click_cases; lia. Qed.

(** X7: the success feedback is shown exactly when the clipboard accepted
    a write. *)
Theorem success_iff_written (host : Host) (doc : Document) (b : Button) :
  In (EFeedback true) (trace (snd (click host doc b))) <->
  exists t,
    In (EPublish t) (trace (snd (click host doc b))) /\
    clipboard_writeText host t = true.
Proof.
  click_cases; cbn [In]; split;
    try (intros Hin;
         repeat (destruct Hin as [Hin|Hin]; try discriminate Hin);
         try contradiction; eauto 8; fail);
    try (intros (t' & Hin & W);
         repeat (destruct Hin as [Hin|Hin]; try discriminate Hin);
         try contradiction; try (injection Hin as <-; congruence);
         auto 8; fail).
Qed.

(** X8: the second request is sent exactly when the first one was answered
    with a response that is not [ok]; a rejected [fetch] is not retried. *)
Theorem retry_iff_not_ok (host : Host) (doc : Document) (b : Button) :
  List.length (requests (trace (snd (click host doc b)))) = 2 <->
  exists res,
    network host 0 (REPO_RAW_BASE ++ getMarkdownPath doc) = Some res /\
    ok res = false.
Proof.
  rewrite click_outcome. unfold outcome.
  destruct (network host 0 _) as [res|] eqn:N.
  - destruct (ok res) eqn:O.
    + split.
      * unfold after_response, failed.
        repeat match goal with
               | |- context [match ?x with _ => _ end] => destruct x
               end; discriminate.
      * intros (res' & [= <-] & O'). congruence.
    + split; [eauto|]. intros _. unfold after_response, failed.
      repeat match goal with
             | |- context [match ?x with _ => _ end] => destruct x
             end; reflexivity.
  - split; [discriminate|]. intros (res & Hres & _). discriminate.
Qed.

(** X9: a page whose source is served at the first request and whose path
    is not a notebook is copied as it is: one request, the body written to
    the clipboard unchanged, the success feedback. *)
Theorem plain_page_copied (host : Host) (doc : Document) (b : Button)
    (res : Response) (t : string) :
  network host 0 (REPO_RAW_BASE ++ getMarkdownPath doc) = Some res ->
  ok res = true -> body res = Some t ->
  endsWith (getMarkdownPath doc) ".ipynb" = false ->
  clipboard_writeText host t = true ->
  click host doc b =
    (Normal tt,
     {| btn := showFeedback (classList_add "copy-md-btn--loading" b) true;
        trace :=
          [EFetch (REPO_RAW_BASE ++ getMarkdownPath doc);
           ENormalize t (getMarkdownPath doc);
           EPublish t;
           EFeedback true] |}).
Proof.
  intros N O B E W. rewrite click_outcome. unfold outcome.
  rewrite N, O. unfold after_response, normalize. now rewrite B, E, W.
Qed.

Lemma plain_page_copied_witness :
  trace (snd (click
    {| JSON_parse := fun _ => None;
       network := fun _ _ => Some {| ok := true; body := Some "# Foo" |};
       clipboard_writeText := fun _ => true |} foo_page new_button)) =
    [EFetch (REPO_RAW_BASE ++ "api/Foo.md");
     ENormalize "# Foo" "api/Foo.md";
     EPublish "# Foo";
     EFeedback true].
Proof.
  rewrite (plain_page_copied
    {| JSON_parse := fun _ => None;
       network := fun _ _ => Some {| ok := true; body := Some "# Foo" |};
       clipboard_writeText := fun _ => true |} foo_page new_button
    {| ok := true; body := Some "# Foo" |} "# Foo"
    eq_refl eq_refl eq_refl eq_refl eq_refl).
  reflexivity.
Defined.

(** X10: when the conversion of the fetched text throws (the text is not
    JSON, or not shaped like a notebook), whichever of the two requests
    delivered the text, the clipboard is not touched: the click consists of
    its requests, the entry into the text callback and the failed
    feedback. *)
Theorem failed_conversion_not_copied (host : Host) (doc : Document)
    (b : Button) (t p : string) (e : error) :
  In (ENormalize t p) (trace (snd (click host doc b))) ->
  normalize host t p = Throw e ->
  exists urls,
    click host doc b =
      (Normal tt,
       {| btn := showFeedback (classList_add "copy-md-btn--loading" b) false;
          trace :=
            (map EFetch urls ++ [ENormalize t p; EFeedback false])%list |}).
Proof.
  rewrite click_outcome. unfold outcome, after_response, failed, loading.
  repeat match goal with
         | |- context [match ?x with _ => _ end] => destruct x eqn:?
         end;
    cbn [snd trace app In]; intros Hin Hthrow;
    repeat (destruct Hin as [Hin|Hin]; try discriminate Hin);
    try contradiction;
    injection Hin as <- <-; try congruence.
  - now exists [REPO_RAW_BASE ++ getMarkdownPath doc].
  - now exists [REPO_RAW_BASE ++ getMarkdownPath doc;
                REPO_RAW_BASE ++ altPath (getMarkdownPath doc)].
Qed.

Lemma failed_conversion_not_copied_witness :
  normalize
    {| JSON_parse := fun _ => None;
       network := fun n _ =>
         Some {| ok := negb (Nat.eqb n 0); body := Some "<html>" |};
       clipboard_writeText := fun _ => true |}
    "<html>" "tutorials/custom_module/index.ipynb" = Throw SyntaxError /\
  exists urls,
    click
      {| JSON_parse := fun _ => None;
         network := fun n _ =>
           Some {| ok := negb (Nat.eqb n 0); body := Some "<html>" |};
         clipboard_writeText := fun _ => true |} notebook_page new_button =
      (Normal tt,
       {| btn :=
            showFeedback (classList_add "copy-md-btn--loading" new_button)
                         false;
          trace :=
            (map EFetch urls
             ++ [ENormalize "<html>" "tutorials/custom_module/index.ipynb";
                 EFeedback false])%list |}).
Proof.
  split; [reflexivity|].
  apply (failed_conversion_not_copied
    {| JSON_parse := fun _ => None;
       network := fun n _ =>
         Some {| ok := negb (Nat.eqb n 0); body := Some "<html>" |};
       clipboard_writeText := fun _ => true |} notebook_page new_button
    "<html>" "tutorials/custom_module/index.ipynb" SyntaxError).
  - cbn. auto.
  - reflexivity.
Defined.

(** ** The feedback on the button *)

Lemma In_classList_add (c c' : string) (b : Button) :
  In c' (classList (classList_add c b)) <-> c' = c \/ In c' (classList b).
Proof.
  unfold classList_add. cbn [classList].
  destruct (existsb (String.eqb c) (classList b)) eqn:E.
  - split; [auto|]. intros [->|H]; [|exact H].
    apply existsb_exists in E. destruct E as (x & Hx & Ex).
    apply String.eqb_eq in Ex. now subst x.
  - rewrite in_app_iff. cbn [In]. split.
    + intros [H|[H|[]]]; auto.
    + intros [->|H]; auto.
Qed.

Lemma In_classList_remove (c c' : string) (b : Button) :
  In c' (classList (classList_remove c b)) <->
  c' <> c /\ In c' (classList b).
Proof.
  unfold classList_remove. cbn [classList]. rewrite filter_In.
  rewrite negb_true_iff, String.eqb_neq. split.
  - intros [H Hne]. split; [congruence | exact H].
  - intros [Hne H]. split; [exact H | congruence].
Qed.

(** X11: [showFeedback] clears the loading class, sets the class of the
    outcome and leaves every other class as it was; in particular a
    feedback class left over from an earlier click stays on the button. *)
Theorem showFeedback_classes (btn : Button) (success : bool) (c : string) :
  In c (classList (showFeedback btn success)) <->
  c = feedback_class success \/
  (c <> "copy-md-btn--loading" /\ In c (classList btn)).
Proof.
  unfold showFeedback, set_innerHTML. cbn [classList].
  change (if success then "copy-md-btn--success" else "copy-md-btn--error")
    with (feedback_class success).
  now rewrite In_classList_add, In_classList_remove.
Qed.

Lemma filter_id_notin (c : string) (l : list string) :
  ~ In c l -> filter (fun c' => negb (String.eqb c c')) l = l.
Proof.
  induction l as [|x l IH]; [reflexivity|]. cbn [In filter]. intros H.
  destruct (String.eqb_spec c x) as [->|_]; [elim H; auto|].
  cbn [negb]. rewrite IH; [reflexivity | intros Hin; apply H; auto].
Qed.

Lemma filter_app_single (c : string) (l : list string) :
  ~ In c l ->
  filter (fun c' => negb (String.eqb c c')) (l ++ [c]) = l.
Proof.
  intros H. rewrite filter_app, (filter_id_notin _ _ H). cbn [filter].
  now rewrite String.eqb_refl, app_nil_r.
Qed.

Lemma existsb_notin (c : string) (l : list string) :
  ~ In c l -> existsb (String.eqb c) l = false.
Proof.
  intros H. destruct (existsb (String.eqb c) l) eqn:E; [|reflexivity].
  apply existsb_exists in E. destruct E as (x & Hx & Ex).
  apply String.eqb_eq in Ex. subst x. now elim H.
Qed.

(** X12: from a button that carries none of the three state classes, a
    click and the timer that follows its feedback bring the class list back
    to what it was and the label back to ["Copy page"], after success and
    after failure alike. *)
Theorem feedback_round_trip (b : Button) (success : bool) :
  idle b ->
  feedback_timeout
    (showFeedback (classList_add "copy-md-btn--loading" b) success) =
  {| classList := classList b; innerHTML := ICON ++ " Copy page" |}.
Proof.
  intros H.
  assert (~ In "copy-md-btn--loading" (classList b)) as Hl
    by (apply H; cbn; auto).
  assert (~ In "copy-md-btn--success" (classList b)) as Hs
    by (apply H; cbn; auto).
  assert (~ In "copy-md-btn--error" (classList b)) as He
    by (apply H; cbn; auto).
  unfold feedback_timeout, showFeedback, set_innerHTML, classList_add,
    classList_remove.
  cbn [classList innerHTML]. f_equal.
  rewrite (existsb_notin _ _ Hl), (filter_app_single _ _ Hl).
  destruct success.
  - rewrite (existsb_notin _ _ Hs), (filter_app_single _ _ Hs).
    now apply filter_id_notin.
  - rewrite (existsb_notin _ _ He).
    rewrite (filter_id_notin "copy-md-btn--success").
    + now apply filter_app_single.
    + rewrite in_app_iff. intros [Hin|[Hin|[]]]; [now apply Hs|].
      discriminate Hin.
Qed.

Lemma feedback_round_trip_witness :
  feedback_timeout
    (showFeedback (classList_add "copy-md-btn--loading" new_button) false) =
  new_button.
Proof.
  apply (feedback_round_trip new_button false).
  intros c Hc Hin. cbn in Hc, Hin.
  repeat (destruct Hc as [<-|Hc];
          [repeat (destruct Hin as [Hin|Hin]; try discriminate Hin);
           contradiction|]).
  contradiction.
Defined.

(** ** The page and the button *)

Lemma scan_children_Some (find : node -> option node_path) (l : list node)
    (k i : nat) (c : node) (q : node_path) :
  Forall (fun c' => find c' = None) (firstn i l) ->
  nth_error l i = Some c -> find c = Some q ->
  scan_children find l k = Some ((k + i) :: q).
Proof.
  revert k i. induction l as [|x l IH]; intros k i Hb Hn Hf.
  - destruct i; discriminate.
  - destruct i as [|i]; cbn [scan_children].
    + injection Hn as ->. rewrite Hf. now rewrite Nat.add_0_r.
    + cbn [firstn] in Hb. inversion Hb as [|? ? Hx Hrest]; subst.
      rewrite Hx. rewrite (IH (S k) i Hrest Hn Hf).
      now rewrite Nat.add_succ_r.
Qed.

Lemma scan_children_inv (find : node -> option node_path) (l : list node)
    (k : nat) (r : node_path) :
  scan_children find l k = Some r ->
  exists i c q,
    r = (k + i) :: q /\ nth_error l i = Some c /\ find c = Some q /\
    Forall (fun c' => find c' = None) (firstn i l).
Proof.
  revert k. induction l as [|x l IH]; intros k; cbn [scan_children];
    [discriminate|].
  destruct (find x) as [q|] eqn:Fx.
  - intros [= <-]. exists 0, x, q. rewrite Nat.add_0_r.
    repeat split; auto.
  - intros H. destruct (IH _ H) as (i & c & q & -> & Hn & Hf & Hb).
    exists (S i), c, q. rewrite Nat.add_succ_r.
    repeat split; auto. cbn [firstn]. now constructor.
Qed.

Lemma scan_children_None (find : node -> option node_path) (l : list node)
    (k : nat) :
  scan_children find l k = None -> Forall (fun c => find c = None) l.
Proof.
  revert k. induction l as [|x l IH]; intros k; cbn [scan_children];
    [constructor|].
  destruct (find x) eqn:Fx; [discriminate|]. intros H.
  constructor; eauto.
Qed.

Lemma first_match_clear (p : node -> bool) (q : node_path) (n : node) :
  first_match p n = Some q -> clear_before p q n.
Proof.
  revert n. induction q as [|i rest IH]; intros n; [constructor|].
  destruct n as [tag cls at' ch|data]; cbn [first_match clear_before];
    destruct (p _) eqn:P; try discriminate.
  intros H. apply scan_children_inv in H.
  destruct H as (j & c & q' & [= -> ->] & Hn & Hf & Hb).
  cbn [Nat.add]. rewrite Hn. auto.
Qed.

Lemma Forall_firstn {A} (P : A -> Prop) (i : nat) (l : list A) :
  Forall P l -> Forall P (firstn i l).
Proof.
  intros H. revert i. induction H; intros [|i]; cbn [firstn]; auto.
Qed.

Lemma none_clear (p : node -> bool) (q : node_path) (n : node) :
  first_match p n = None -> node_at q n <> None -> clear_before p q n.
Proof.
  revert n. induction q as [|i rest IH]; intros n; [constructor|].
  destruct n as [tag cls at' ch|data]; cbn [first_match clear_before node_at];
    destruct (p _) eqn:P; try discriminate; [|intros _ H; now elim H].
  intros H Hv. apply scan_children_None in H.
  destruct (nth_error ch i) as [c|] eqn:Hn; [|now elim Hv].
  repeat split; [now apply Forall_firstn|].
  apply IH; [|exact Hv].
  rewrite Forall_forall in H. apply H. eapply nth_error_In; eauto.
Qed.

Lemma first_match_valid (p : node -> bool) (q : node_path) (n : node) :
  first_match p n = Some q -> node_at q n <> None.
Proof.
  revert n. induction q as [|i rest IH]; intros n; [discriminate|].
  destruct n as [tag cls at' ch|data]; cbn [first_match node_at];
    destruct (p _) eqn:P; try discriminate.
  intros H. apply scan_children_inv in H.
  destruct H as (j & c & q' & [= -> ->] & Hn & Hf & Hb).
  cbn [Nat.add]. rewrite Hn. eauto.
Qed.

Lemma firstn_insert_nth {A} (i : nat) (x : A) (l : list A) :
  i <= List.length l -> firstn i (insert_nth i x l) = firstn i l.
Proof.
  revert l. induction i as [|i IH]; intros l H; [reflexivity|].
  destruct l as [|y l]; [cbn in H; lia|]. cbn [insert_nth firstn].
  rewrite IH; [reflexivity | cbn in H; lia].
Qed.

Lemma nth_error_insert_nth {A} (i : nat) (x : A) (l : list A) :
  i <= List.length l -> nth_error (insert_nth i x l) i = Some x.
Proof.
  revert l. induction i as [|i IH]; intros l H; [reflexivity|].
  destruct l as [|y l]; [cbn in H; lia|]. cbn [insert_nth nth_error].
  apply IH. cbn in H; lia.
Qed.

Lemma nth_error_insert_nth_S {A} (i : nat) (x : A) (l : list A) :
  nth_error (insert_nth i x l) (S i) = nth_error l i.
Proof.
  revert l. induction i as [|i IH]; intros l; [reflexivity|].
  destruct l as [|y l]; [reflexivity|]. cbn [insert_nth nth_error].
  apply IH.
Qed.

Lemma remove_insert_nth {A} (i : nat) (x : A) (l : list A) :
  i <= List.length l -> remove_nth i (insert_nth i x l) = l.
Proof.
  revert l. induction i as [|i IH]; intros l H; [now destruct l|].
  destruct l as [|y l]; [cbn in H; lia|]. cbn [insert_nth remove_nth].
  rewrite IH; [reflexivity | cbn in H; lia].
Qed.

Lemma firstn_update_nth {A} (i : nat) (f : A -> A) (l : list A) :
  firstn i (update_nth i f l) = firstn i l.
Proof.
  revert l. induction i as [|i IH]; intros [|y l]; cbn; try reflexivity.
  now rewrite IH.
Qed.

Lemma nth_error_update_nth {A} (i : nat) (f : A -> A) (l : list A) :
  nth_error (update_nth i f l) i = option_map f (nth_error l i).
Proof.
  revert l. induction i as [|i IH]; intros [|y l]; cbn; try reflexivity.
  apply IH.
Qed.

Lemma nth_error_update_nth_S {A} (i : nat) (f : A -> A) (l : list A) :
  nth_error (update_nth i f l) (S i) = nth_error l (S i).
Proof.
  revert l. induction i as [|i IH]; intros [|y l]; cbn; try reflexivity.
  destruct l; [now destruct i | apply (IH (a :: l))].
Qed.

Lemma update_nth_twice {A} (i : nat) (f g : A -> A) (l : list A) (x : A) :
  nth_error l i = Some x -> f (g x) = x ->
  update_nth i f (update_nth i g l) = l.
Proof.
  revert l. induction i as [|i IH]; intros [|y l]; cbn; try discriminate.
  - intros [= ->] ->. reflexivity.
  - intros Hn Hf. now rewrite IH.
Qed.

Lemma has_class_with_children (c : string) (f : list node -> list node)
    (n : node) :
  has_class c (with_children f n) = has_class c n.
Proof. now destruct n. Qed.

(** A node with class [c] inserted where nothing before it has that class
    becomes the first match. *)
Lemma first_match_insertBefore (c : string) (q : node_path) (new n : node) :
  clear_before (has_class c) q n -> q <> [] -> has_class c new = true ->
  first_match (has_class c) (insertBefore q new n) = Some q.
Proof.
  intros Hc Hq Hnew. revert n Hc.
  induction q as [|i rest IH]; intros n Hc; [now elim Hq|].
  destruct n as [tag cls at' ch|data]; cbn [clear_before] in Hc;
    [|now destruct Hc].
  destruct Hc as (Pn & Hb & Hc). cbn [has_class] in Pn.
  destruct (nth_error ch i) as [x|] eqn:Hn; [|now elim Hc].
  assert (i < List.length ch) as Hlen
    by (apply nth_error_Some; congruence).
  destruct rest as [|j rest].
  - cbn [insertBefore with_children first_match has_class]. rewrite Pn.
    rewrite (scan_children_Some _ _ 0 i new []); [reflexivity| | |].
    + rewrite firstn_insert_nth by lia. exact Hb.
    + apply nth_error_insert_nth. lia.
    + destruct new; cbn [first_match]; now rewrite Hnew.
  - change (insertBefore (i :: j :: rest) new (Elem tag cls at' ch))
      with (Elem tag cls at'
              (update_nth i (insertBefore (j :: rest) new) ch)).
    cbn [first_match has_class]. rewrite Pn.
    rewrite (scan_children_Some _ _ 0 i (insertBefore (j :: rest) new x)
               (j :: rest)); [reflexivity| | |].
    + now rewrite firstn_update_nth.
    + now rewrite nth_error_update_nth, Hn.
    + apply IH; [discriminate | exact Hc].
Qed.

Lemma remove_at_insertBefore (q : node_path) (new n : node) :
  node_at q n <> None -> q <> [] ->
  remove_at q (insertBefore q new n) = n.
Proof.
  intros Hv Hq. revert n Hv.
  induction q as [|i rest IH]; intros n Hv; [now elim Hq|].
  destruct n as [tag cls at' ch|data]; cbn [node_at] in Hv;
    [|now elim Hv].
  destruct (nth_error ch i) as [x|] eqn:Hn; [|now elim Hv].
  assert (i < List.length ch) as Hlen
    by (apply nth_error_Some; congruence).
  destruct rest as [|j rest].
  - cbn [insertBefore remove_at with_children].
    now rewrite remove_insert_nth by lia.
  - change (remove_at (i :: j :: rest)
              (insertBefore (i :: j :: rest) new (Elem tag cls at' ch)))
      with (Elem tag cls at'
              (update_nth i (remove_at (j :: rest))
                 (update_nth i (insertBefore (j :: rest) new) ch))).
    rewrite (update_nth_twice _ _ _ _ x Hn); [reflexivity|].
    apply IH; [discriminate | exact Hv].
Qed.

Lemma node_at_insertBefore (q : node_path) (new n : node) :
  node_at q n <> None -> q <> [] ->
  node_at q (insertBefore q new n) = Some new /\
  node_at (next_sibling q) (insertBefore q new n) = node_at q n.
Proof.
  intros Hv Hq. revert n Hv.
  induction q as [|i rest IH]; intros n Hv; [now elim Hq|].
  destruct n as [tag cls at' ch|data]; cbn [node_at] in Hv;
    [|now elim Hv].
  destruct (nth_error ch i) as [x|] eqn:Hn; [|now elim Hv].
  assert (i < List.length ch) as Hlen
    by (apply nth_error_Some; congruence).
  destruct rest as [|j rest].
  - cbn [insertBefore with_children node_at next_sibling].
    rewrite nth_error_insert_nth by lia.
    now rewrite nth_error_insert_nth_S, Hn.
  - change (insertBefore (i :: j :: rest) new (Elem tag cls at' ch))
      with (Elem tag cls at'
              (update_nth i (insertBefore (j :: rest) new) ch)).
    change (next_sibling (i :: j :: rest))
      with (i :: next_sibling (j :: rest)).
    cbn [node_at]. rewrite nth_error_update_nth, Hn. cbn [option_map].
    apply IH; [discriminate | exact Hv].
Qed.

(** X13: when the first element of class [md-content__button] is not the
    root, [createButton] puts the copy button right before it: the button
    takes its place, the element follows as next sibling, taking the button
    out again gives the page as it was, and the button is now the first
    element of that class. *)
Theorem createButton_inserts (root : node) (q : node_path) :
  querySelector "md-content__button" (Some root) = Some q -> q <> [] ->
  exists root',
    createButton (Some root) = Some root' /\
    node_at q root' = Some copy_button /\
    node_at (next_sibling q) root' = node_at q root /\
    remove q (Some root') = Some root /\
    querySelector "md-content__button" (Some root') = Some q.
Proof.
  intros Hq Hne. exists (insertBefore q copy_button root).
  pose proof (first_match_valid _ _ _ Hq) as Hv.
  destruct (node_at_insertBefore q copy_button root Hv Hne) as [Hat Hsib].
  repeat split; auto.
  - unfold createButton. rewrite Hq. destruct q; [now elim Hne|reflexivity].
  - unfold remove. destruct q; [now elim Hne|].
    now rewrite remove_at_insertBefore.
  - apply first_match_insertBefore; auto. now apply first_match_clear.
Qed.

Lemma createButton_inserts_witness :
  querySelector "md-content__button" (Some sample_page) = Some [0; 0; 0] /\
  exists root',
    createButton (Some sample_page) = Some root' /\
    node_at [0; 0; 0] root' = Some copy_button /\
    node_at [0; 0; 1] root' = node_at [0; 0; 0] sample_page /\
    remove [0; 0; 0] (Some root') = Some sample_page /\
    querySelector "md-content__button" (Some root') = Some [0; 0; 0].
Proof.
  split; [reflexivity|].
  apply (createButton_inserts sample_page [0; 0; 0]);
    [reflexivity | discriminate].
Defined.

(** X14: on a page without element of class [copy-md-btn] the navigation
    callback adds the button like [createButton]; run again on the page it
    produced, it removes that button and puts it back at the same place, so
    the page is unchanged and buttons never pile up. *)
Theorem navigation_keeps_one_button (d : Dom) :
  querySelector "copy-md-btn" d = None ->
  on_navigate d = createButton d /\
  on_navigate (createButton d) = createButton d.
Proof.
  intros Hnone.
  assert (on_navigate d = createButton d) as E
    by (unfold on_navigate; now rewrite Hnone).
  split; [exact E|].
  destruct d as [root|]; [|reflexivity].
  destruct (querySelector "md-content__button" (Some root)) as [q|] eqn:Hq.
  - destruct q as [|i rest].
    + assert (createButton (Some root) = Some root) as C
        by (unfold createButton; now rewrite Hq).
      rewrite C. now rewrite E.
    + assert (createButton (Some root)
              = Some (insertBefore (i :: rest) copy_button root)) as C
        by (unfold createButton; now rewrite Hq).
      rewrite C. unfold on_navigate.
      pose proof (first_match_valid _ _ _ Hq) as Hv.
      assert (querySelector "copy-md-btn"
                (Some (insertBefore (i :: rest) copy_button root))
              = Some (i :: rest)) as ->.
      { apply first_match_insertBefore; [|discriminate|reflexivity].
        now apply none_clear. }
      unfold remove. rewrite remove_at_insertBefore by (auto; discriminate).
      exact C.
  - assert (createButton (Some root) = Some root) as C
      by (unfold createButton; now rewrite Hq).
    rewrite C. now rewrite E.
Qed.

Lemma navigation_keeps_one_button_witness :
  querySelector "copy-md-btn" (Some sample_page) = None /\
  on_navigate (on_navigate (Some sample_page)) =
    createButton (Some sample_page).
Proof.
  split; [reflexivity|].
  destruct (navigation_keeps_one_button (Some sample_page) eq_refl)
    as [E R].
  rewrite E. exact R.
Defined.

(** ** Further properties of the conversion *)

Lemma cells_loop_app (l1 l2 : list value) (parts : list string) :
  cells_loop (l1 ++ l2) parts =
    (parts' <- cells_loop l1 parts ;; cells_loop l2 parts').
Proof.
  revert parts. induction l1 as [|c l1 IH]; intros parts; [reflexivity|].
  cbn [app cells_loop]. destruct (push_cell c parts); cbn [cbind]; auto.
Qed.

Lemma push_cell_passed_over (cell : value) (parts : list string) :
  passed_over cell -> push_cell cell parts = Normal parts.
Proof.
  intros [[s Hs] Hty]. unfold push_cell. rewrite Hs. cbn [cbind].
  destruct (prop "cell_type" cell) as [ty| |] eqn:Et; cbn [cbind].
  - destruct ty as [[| | |t| |]|]; try reflexivity.
    destruct (Hty t eq_refl) as [Hm Hc].
    apply String.eqb_neq in Hm, Hc. now rewrite Hm, Hc.
  - destruct cell; discriminate.
  - destruct cell; discriminate.
Qed.

(** X15: a cell of any other kind leaves no trace in the output, not even
    a separator: with or without it the notebook converts to the same
    text. *)
Theorem other_cells_invisible (props1 props2 : list (string * value))
    (before after : list value) (cell : value) :
  passed_over cell ->
  lookup "cells" props1 = Some (VArr (before ++ cell :: after)) ->
  lookup "cells" props2 = Some (VArr (before ++ after)) ->
  notebook_markdown (VObj props1) = notebook_markdown (VObj props2).
Proof.
  intros Hc L1 L2. unfold notebook_markdown, cells_of.
  cbn [prop cbind]. rewrite L1, L2. cbn [truthy cbind].
  rewrite !cells_loop_app.
  destruct (cells_loop before []) as [parts| |]; cbn [cbind]; try reflexivity.
  cbn [cells_loop]. now rewrite (push_cell_passed_over _ _ Hc).
Qed.

Lemma other_cells_invisible_witness :
  notebook_markdown
    (VObj [("cells",
            VArr [VObj [("cell_type", VStr "markdown");
                        ("source", VArr [VStr "# Title"])];
                  VObj [("cell_type", VStr "raw");
                        ("source", VArr [VStr "---"])];
                  VObj [("cell_type", VStr "code");
                        ("source", VArr [VStr "print(1)"])]])]) =
  notebook_markdown
    (VObj [("cells",
            VArr [VObj [("cell_type", VStr "markdown");
                        ("source", VArr [VStr "# Title"])];
                  VObj [("cell_type", VStr "code");
                        ("source", VArr [VStr "print(1)"])]])]).
Proof.
  apply (other_cells_invisible _ _
           [VObj [("cell_type", VStr "markdown");
                  ("source", VArr [VStr "# Title"])]]
           [VObj [("cell_type", VStr "code");
                  ("source", VArr [VStr "print(1)"])]]
           (VObj [("cell_type", VStr "raw");
                  ("source", VArr [VStr "---"])])).
  - split; [now exists "---"|].
    intros t [= <-]. split; discriminate.
  - reflexivity.
  - reflexivity.
Defined.

Lemma push_cell_Normal (cell : value) (parts : list string) (s : string) :
  cell_source cell = Normal s -> exists parts', push_cell cell parts = Normal parts'.
Proof.
  intros Hs. unfold push_cell. rewrite Hs. cbn [cbind].
  destruct (prop "cell_type" cell) as [ty| |] eqn:Et; cbn [cbind];
    [|destruct cell; discriminate..].
  destruct ty as [[| | |t| |]|]; eauto.
  destruct (String.eqb t "markdown"); eauto.
  destruct (String.eqb t "code"); eauto.
Qed.

Lemma join_with_cases (f : value -> completion string) (sep : string)
    (l : list value) :
  Forall (fun v => if printable v then exists s, f v = Normal s
                   else f v = Throw TypeError) l ->
  if forallb printable l then exists s, join_with f sep l = Normal s
  else join_with f sep l = Throw TypeError.
Proof.
  induction 1 as [|v rest Hv Hrest IH]; [cbn; eauto|].
  assert (if printable v
          then exists s, match v with VNull => Normal "" | _ => f v end
                         = Normal s
          else match v with VNull => Normal "" | _ => f v end
               = Throw TypeError) as Hel.
  { destruct v; try exact Hv. cbn. eauto. }
  cbn [forallb].
  destruct rest as [|v' rest'].
  - cbn [forallb]. rewrite andb_true_r. exact Hel.
  - change (join_with f sep (v :: v' :: rest'))
      with (s <- match v with VNull => Normal "" | _ => f v end ;;
            t <- join_with f sep (v' :: rest') ;;
            Normal (s ++ sep ++ t)).
    destruct (printable v); cbn [andb].
    + destruct Hel as [s ->]. cbn [cbind].
      destruct (forallb printable (v' :: rest')).
      * destruct IH as [t ->]. cbn [cbind]. eauto.
      * now rewrite IH.
    + now rewrite Hel.
Qed.

Lemma ToString_cases (v : value) :
  if printable v then exists s, ToString v = Normal s
  else ToString v = Throw TypeError.
Proof.
  induction v using value_array_ind; cbn [printable ToString]; eauto.
  - destruct b; eauto.
  - now apply join_with_cases.
  - destruct (lookup "toString" props); eauto.
Qed.

Lemma cell_source_cases (cell : value) :
  if cell_readable cell then exists s, cell_source cell = Normal s
  else cell_source cell = Throw TypeError.
Proof.
  assert (forall lines,
            if forallb printable lines
            then exists s, join "" lines = Normal s
            else join "" lines = Throw TypeError) as Hjoin.
  { intros lines. apply join_with_cases, Forall_forall.
    intros v _. apply ToString_cases. }
  unfold cell_source, cell_readable, source_readable.
  destruct cell as [|b|n|s|l|props]; cbn [prop cbind]; eauto;
    try (now exists "").
  destruct (lookup "source" props) as [[|b|n|s|l|props']|];
    cbn [truthy]; try (now exists ""); try reflexivity.
  - destruct b; cbn [negb]; [reflexivity | now exists ""].
  - destruct (String.eqb n "0"); cbn [negb]; [now exists "" | reflexivity].
  - destruct (String.eqb s ""); cbn [negb]; [now exists "" | reflexivity].
  - apply Hjoin.
Qed.

Lemma cells_loop_cases (cells : list value) (parts : list string) :
  if forallb cell_readable cells
  then exists parts', cells_loop cells parts = Normal parts'
  else cells_loop cells parts = Throw TypeError.
Proof.
  revert parts. induction cells as [|c cells IH]; intros parts;
    [cbn; eauto|].
  cbn [forallb cells_loop]. pose proof (cell_source_cases c) as Hc.
  destruct (cell_readable c); cbn [andb].
  - destruct Hc as [s Hs].
    destruct (push_cell_Normal c parts s Hs) as [parts' ->].
    cbn [cbind]. apply IH.
  - unfold push_cell. now rewrite Hc.
Qed.

(** X16: the cells of a notebook convert exactly when every cell is
    readable, whatever the kinds of the cells: no cell is [null], and the
    [source] of a cell that is an object is absent, is [null], [false], [0]
    or the empty string, or is an array of printable values.  Otherwise the
    conversion throws a type error, also when the offending cell is of a
    kind that would be passed over. *)
Theorem conversion_succeeds_iff (props : list (string * value))
    (cells : list value) :
  lookup "cells" props = Some (VArr cells) ->
  ((exists md, notebook_markdown (VObj props) = Normal md) <->
   forallb cell_readable cells = true) /\
  (forallb cell_readable cells = false ->
   notebook_markdown (VObj props) = Throw TypeError).
Proof.
  intros L. unfold notebook_markdown, cells_of.
  cbn [prop cbind]. rewrite L. cbn [truthy cbind].
  pose proof (cells_loop_cases cells []) as H.
  destruct (forallb cell_readable cells).
  - destruct H as [parts ->]. cbn [cbind].
    split; [split; eauto | discriminate].
  - rewrite H. cbn [cbind].
    split; [split; [intros [md Hmd]|]; discriminate | reflexivity].
Qed.

Lemma conversion_succeeds_iff_witness :
  lookup "cells"
    [("cells",
      VArr [VObj [("cell_type", VStr "raw"); ("source", VStr "---")]])] =
    Some (VArr [VObj [("cell_type", VStr "raw"); ("source", VStr "---")]]) /\
  forallb cell_readable
    [VObj [("cell_type", VStr "raw"); ("source", VStr "---")]] = false /\
  notebook_markdown
    (VObj [("cells",
            VArr [VObj [("cell_type", VStr "raw");
                        ("source", VStr "---")]])]) = Throw TypeError.
Proof.
  split; [reflexivity|]. split; [reflexivity|].
  exact (proj2 (conversion_succeeds_iff
           [("cells",
             VArr [VObj [("cell_type", VStr "raw");
                         ("source", VStr "---")]])]
           [VObj [("cell_type", VStr "raw"); ("source", VStr "---")]]
           eq_refl) eq_refl).
Defined.

(** ** The two revisions of the script *)

(** X17: on a page whose resolved path does not end in [.ipynb] the
    notebook-aware script does what the earlier revision did: the same
    requests, the same clipboard write and the same feedback, in the same
    order, and the same final button. *)
Theorem revisions_agree (host : Host) (doc : Document) (b : Button) :
  endsWith (getMarkdownPath doc) ".ipynb" = false ->
  fst (click host doc b) = fst (Earlier.click host doc b) /\
  btn (snd (click host doc b)) = btn (snd (Earlier.click host doc b)) /\
  filter is_shared (trace (snd (click host doc b))) =
    trace (snd (Earlier.click host doc b)).
Proof.
  intros Hn.
  assert (altPath (getMarkdownPath doc)
          = Earlier.altPath (getMarkdownPath doc)) as EA
    by (unfold altPath, Earlier.altPath; now rewrite Hn).
  assert (forall t, normalize host t (getMarkdownPath doc) = Normal t) as N1
    by (intros t; unfold normalize; now rewrite Hn).
  assert (forall t, normalize host t (altPath (getMarkdownPath doc))
                    = Normal t) as N2.
  { intros t. unfold normalize. now rewrite altPath_ipynb_iff, Hn. }
  rewrite click_outcome.
  unfold outcome, after_response, failed, loading.
  unfold Earlier.click, Earlier.copyMarkdown, Earlier.on_response, publish,
    feedback, fetch, text, emit, update_btn, settle, ret, catch, bind.
  cbn [trace btn requests List.length app fst snd].
  rewrite <- EA.
  destruct (network host 0 _) as [res|]; [|now repeat split].
  destruct (ok res); cbn [negb trace btn requests List.length app fst snd].
  - destruct (body res) as [t|]; [|now repeat split].
    rewrite N1. cbn [fst snd trace btn app].
    destruct (clipboard_writeText host t); now repeat split.
  - destruct (network host 1 _) as [res2|]; [|now repeat split].
    destruct (ok res2); cbn [negb trace btn app fst snd];
      [|now repeat split].
    destruct (body res2) as [t|]; [|now repeat split].
    rewrite N2. cbn [fst snd trace btn app].
    destruct (clipboard_writeText host t); now repeat split.
Qed.

Lemma revisions_agree_witness :
  endsWith (getMarkdownPath foo_page) ".ipynb" = false /\
  trace (snd (Earlier.click host_index foo_page new_button)) =
    filter is_shared (trace (snd (click host_index foo_page new_button))).
Proof.
  split; [reflexivity|].
  symmetry.
  exact (proj2 (proj2 (revisions_agree host_index foo_page new_button
                         eq_refl))).
Defined.

(** ** The resolved path and the base URL *)

Lemma strip_trailing_slash_head (s : string) :
  String.prefix "/" s = false ->
  String.prefix "/" (strip_trailing_slash s) = false /\
  (strip_trailing_slash s = "" -> s = "").
Proof.
  unfold strip_trailing_slash. destruct s as [|c s]; [now split|].
  cbn [String.prefix]. destruct (ascii_dec "/" c) as [<-|Hne].
  - destruct s; discriminate.
  - intros _. cbn [replace_at_end].
    destruct (String.eqb_spec (String c s) "/") as [E|_].
    + injection E as E _. now elim Hne.
    + cbn [String.prefix]. destruct (ascii_dec "/" c); [contradiction|].
      split; [reflexivity | discriminate].
Qed.

(** X18: for a navigational path that starts with a single slash the
    resolved path does not start with a slash, so the request URL has no
    doubled slash after the base. *)
Theorem resolved_path_is_relative (s : string) :
  String.prefix "/" s = false ->
  String.prefix "/" (getMarkdownPath (at_location ("/" ++ s))) = false.
Proof.
  intros H. cbn [getMarkdownPath at_location editLink pathname].
  destruct (strip_trailing_slash_head s H) as [Hh He].
  unfold path_from_location.
  assert (strip_trailing_slash ("/" ++ s) =
          if String.eqb s "" then "" else "/" ++ strip_trailing_slash s) as ->.
  { unfold strip_trailing_slash. cbn [append replace_at_end].
    destruct s; reflexivity. }
  destruct (String.eqb_spec s "") as [->|Hs]; [reflexivity|].
  destruct (strip_trailing_slash s) as [|c r] eqn:E;
    [now elim Hs; apply He|].
  cbn [append]. cbv zeta.
  destruct (_ || _) eqn:O; [reflexivity|].
  cbn [strip_leading_slash Ascii.eqb Bool.eqb].
  destruct (endsWith (String c r) ".md"); [exact Hh|].
  cbn [append String.prefix] in Hh |- *.
  destruct (ascii_dec "/" c); [destruct r; discriminate Hh | reflexivity].
Qed.

Lemma resolved_path_is_relative_witness :
  String.prefix "/" "guide/intro/" = false /\
  String.prefix "/" (getMarkdownPath (at_location "/guide/intro/")) = false.
Proof.
  split; [reflexivity|].
  exact (resolved_path_is_relative "guide/intro/" eq_refl).
Defined.
